(** * Verification of the NewCodeBench evaluator

    A shallow embedding of [evaluate_results_of_NewCodeBench.py]: the
    equivalence engine [results_equivalent] (the host copy and the two copies
    written into the synthesized harnesses), the task shape classifier
    [is_class_based_task], the driver loops [__run_tests__] of both harnesses
    and the verdict of [run_file_and_capture]; the code extractor, the
    host side of the harness synthesizers and the loop of [main].

    The limits of the interpreter (the depth of recursion, the depth of
    nesting that its parser accepts, the digits of an integer that it
    converts to text, memory) and the errors of the operating system are
    not part of the embedding: the drivers are embedded as they run once
    the program made of the candidate's code and the harness has compiled. *)

From Stdlib Require Import Floats.SpecFloat.
From Stdlib Require Import ZArith List String Ascii Bool Lia PeanoNat.
From Stdlib Require Import Decimal DecimalString.
Import ListNotations.

Local Open Scope string_scope.
Local Open Scope Z_scope.

(** ** Python exceptions and an error monad *)

(** The exceptions that the embedded code can raise or see.  The text of a
    diagnostic is kept structured: the rendering of values by [repr] is not
    part of the embedding. *)
Inductive exn : Type :=
| OverflowError                       (* int too large to convert to float *)
| KeyError
| TypeError
| AttributeError
| NameError                           (* a name that nothing binds *)
| CandidateError (name : string).     (* any other exception raised by candidate code *)

Inductive res (A : Type) : Type :=
| Ok (a : A)
| Raise (e : exn).
Arguments Ok {A} a.
Arguments Raise {A} e.

Definition bind {A B : Type} (m : res A) (k : A -> res B) : res B :=
  match m with
  | Ok a => k a
  | Raise e => Raise e
  end.

Notation "x <- m ;; k" := (bind m (fun x => k))
  (at level 61, m at next level, right associativity).

(** ** Python floats: IEEE 754 binary64 *)

Module Float.

Definition prec : Z := 53.
Definition emax : Z := 1024.

Definition sub : spec_float -> spec_float -> spec_float := SFsub prec emax.
Definition div : spec_float -> spec_float -> spec_float := SFdiv prec emax.
Definition abs : spec_float -> spec_float := SFabs.
Definition eqb : spec_float -> spec_float -> bool := SFeqb.
Definition ltb : spec_float -> spec_float -> bool := SFltb.

(** The float nearest to an integer (ties to even); an integer beyond the
    range of binary64 rounds to an infinity. *)
Definition of_Z (n : Z) : spec_float := binary_normalize prec emax n 0 false.

(** [float(n)] for a Python int, as the arithmetic operators compute it:
    [OverflowError] when the integer is out of range. *)
Definition of_int (n : Z) : res spec_float :=
  match of_Z n with
  | S754_infinity _ => Raise OverflowError
  | f => Ok f
  end.

(** A decimal literal [n / 10^k] given by integers that binary64 holds
    exactly: the correctly rounded quotient. *)
Definition of_ratio (n d : Z) : spec_float := div (of_Z n) (of_Z d).

Definition is_nan (f : spec_float) : bool :=
  match f with S754_nan => true | _ => false end.

(** Exact comparison of an integer with a float, as CPython compares an
    int with a float: by value, without converting the integer. *)
Definition Zcompare (n : Z) (f : spec_float) : option comparison :=
  match f with
  | S754_nan => None
  | S754_infinity s => Some (if s then Gt else Lt)
  | S754_zero _ => Some (n ?= 0)
  | S754_finite s m e =>
      let v := cond_Zopp s (Zpos m) in
      Some (if 0 <=? e then n ?= v * 2 ^ e else n * 2 ^ (- e) ?= v)
  end.

Definition Zeqb (n : Z) (f : spec_float) : bool :=
  match Zcompare n f with Some Eq => true | _ => false end.

Definition Zltb (n : Z) (f : spec_float) : bool :=
  match Zcompare n f with Some Lt => true | _ => false end.

(** Bitwise identity of two float payloads. *)
Definition same (f g : spec_float) : bool :=
  match f, g with
  | S754_zero s, S754_zero t => Bool.eqb s t
  | S754_infinity s, S754_infinity t => Bool.eqb s t
  | S754_nan, S754_nan => true
  | S754_finite s m e, S754_finite t n k =>
      Bool.eqb s t && Pos.eqb m n && Z.eqb e k
  | _, _ => false
  end.

Definition inf : spec_float := S754_infinity false.
Definition nan : spec_float := S754_nan.

(** The literal [1e-9]. *)
Definition tolerance : spec_float := Eval vm_compute in of_ratio 1 1000000000.

End Float.

(** ** Python values *)

(** The kinds of value the equivalence engine distinguishes.  A float carries
    the identity [oid] of its object: CPython's container comparisons accept
    two items that are one object before they ask [==], which matters for
    NaN, the one value that is not equal to itself.  Text is a Rocq string,
    one character per code point.  A mapping keeps its insertion order, which
    is the order of [keys()]; its keys are strings, as in every mapping
    decoded from JSON. *)
#[warnings="-register-all"]
Inductive value : Type :=
| VNone
| VBool (b : bool)
| VInt (n : Z)
| VFloat (oid : positive) (f : spec_float)
| VStr (s : string)
| VList (items : list value)
| VTuple (items : list value)
| VDict (entries : list (string * value))
| VSet (elems : list value).

(** [x is y], where it can differ from what [==] then says: the same float
    object.  For every other kind of value one object is equal to itself
    under [py_eq] as soon as its float leaves are, so the shortcut changes
    nothing there. *)
Definition same_object (x y : value) : bool :=
  match x, y with
  | VFloat i f, VFloat j g => Pos.eqb i j && Float.same f g
  | _, _ => false
  end.

(** Numbers: bool is a subclass of int. *)
Inductive num : Type :=
| NInt (n : Z)
| NFloat (f : spec_float).

Definition as_num (v : value) : option num :=
  match v with
  | VBool b => Some (NInt (if b then 1 else 0))
  | VInt n => Some (NInt n)
  | VFloat _ f => Some (NFloat f)
  | _ => None
  end.

Definition num_eq (a b : num) : bool :=
  match a, b with
  | NInt m, NInt n => Z.eqb m n
  | NInt m, NFloat g => Float.Zeqb m g
  | NFloat f, NInt n => Float.Zeqb n f
  | NFloat f, NFloat g => Float.eqb f g
  end.

(** [a - b]: exact on two ints, otherwise the int operand is converted to a
    float first. *)
Definition num_sub (a b : num) : res num :=
  match a, b with
  | NInt m, NInt n => Ok (NInt (m - n))
  | NInt m, NFloat g => f <- Float.of_int m ;; Ok (NFloat (Float.sub f g))
  | NFloat f, NInt n => g <- Float.of_int n ;; Ok (NFloat (Float.sub f g))
  | NFloat f, NFloat g => Ok (NFloat (Float.sub f g))
  end.

Definition num_abs (a : num) : num :=
  match a with
  | NInt n => NInt (Z.abs n)
  | NFloat f => NFloat (Float.abs f)
  end.

(** [a < f] for a float [f]. *)
Definition num_lt_float (a : num) (f : spec_float) : bool :=
  match a with
  | NInt n => Float.Zltb n f
  | NFloat g => Float.ltb g f
  end.

(** [abs(a - b) < 1e-9] *)
Definition within_tolerance (a b : num) : res bool :=
  d <- num_sub a b ;; Ok (num_lt_float (num_abs d) Float.tolerance).

(** ** Host-language equality *)

Section Lists.
Context {A B : Type}.

(** Equality of two lists (or of the item sequences of two tuples): the
    same length and every pair of items accepted by [eq_item]. *)
Fixpoint list_eq_with (eq_item : A -> B -> bool) (l1 : list A) (l2 : list B) : bool :=
  match l1, l2 with
  | [], [] => true
  | x :: r1, y :: r2 => eq_item x y && list_eq_with eq_item r1 r2
  | _, _ => false
  end.
End Lists.

(** [d[key]] *)
Fixpoint lookup {A : Type} (key : string) (d : list (string * A)) : option A :=
  match d with
  | [] => None
  | (k, v) :: rest => if String.eqb key k then Some v else lookup key rest
  end.

Definition keys {A : Type} (d : list (string * A)) : list string := map fst d.

Definition has_key {A : Type} (d : list (string * A)) (key : string) : bool :=
  existsb (String.eqb key) (keys d).

(** [result == expected].  Numbers compare by value across bool, int and
    float; a list is never equal to a tuple; the items of lists and tuples,
    the values of mappings and the elements of sets are compared with
    CPython's [PyObject_RichCompareBool]: the same object, or [==]. *)
Fixpoint py_eq (a b : value) {struct a} : bool :=
  match a, b with
  | VNone, VNone => true
  | VStr s, VStr t => String.eqb s t
  | VList l1, VList l2 | VTuple l1, VTuple l2 =>
      (fix items_eq (l1 l2 : list value) {struct l1} : bool :=
         match l1, l2 with
         | [], [] => true
         | x :: r1, y :: r2 => (same_object x y || py_eq x y) && items_eq r1 r2
         | _, _ => false
         end) l1 l2
  | VDict d1, VDict d2 =>
      Nat.eqb (List.length d1) (List.length d2) &&
      (fix entries_eq (d : list (string * value)) {struct d} : bool :=
         match d with
         | [] => true
         | (k, v) :: rest =>
             match lookup k d2 with
             | Some w => (same_object v w || py_eq v w) && entries_eq rest
             | None => false
             end
         end) d1
  | VSet s1, VSet s2 =>
      Nat.eqb (List.length s1) (List.length s2) &&
      (fix subset (s : list value) {struct s} : bool :=
         match s with
         | [] => true
         | x :: rest => existsb (fun y => same_object x y || py_eq x y) s2 && subset rest
         end) s1
  | _, _ =>
      match as_num a, as_num b with
      | Some m, Some n => num_eq m n
      | _, _ => false
      end
  end.

(** Item comparison inside containers. *)
Definition item_eq (x y : value) : bool := same_object x y || py_eq x y.

(** [list(a) == list(b)] on the items of two sequences. *)
Definition list_eq (l1 l2 : list value) : bool := list_eq_with item_eq l1 l2.

(** ** Text *)

(** The characters below 256 that [str.strip] removes: those for which
    [str.isspace] holds. *)
Definition is_space (c : ascii) : bool :=
  let n := nat_of_ascii c in
  ((9 <=? n) && (n <=? 13) || (28 <=? n) && (n <=? 32) || (n =? 133) || (n =? 160))%nat.

Fixpoint lstrip (s : string) : string :=
  match s with
  | EmptyString => EmptyString
  | String c rest => if is_space c then lstrip rest else s
  end.

Fixpoint rstrip (s : string) : string :=
  match s with
  | EmptyString => EmptyString
  | String c rest =>
      match rstrip rest with
      | EmptyString => if is_space c then EmptyString else String c EmptyString
      | kept => String c kept
      end
  end.

(** [s.strip()] *)
Definition strip (s : string) : string := rstrip (lstrip s).

(** ** The equivalence engine *)

(** [set(d1.keys()) == set(d2.keys())] *)
Definition key_set_eq {A B : Type} (d1 : list (string * A)) (d2 : list (string * B)) : bool :=
  forallb (has_key d2) (keys d1) && forallb (has_key d1) (keys d2).

(** [d[key]], raising [KeyError] on a missing key. *)
Definition getitem {A : Type} (d : list (string * A)) (key : string) : res A :=
  match lookup key d with
  | Some v => Ok v
  | None => Raise KeyError
  end.

(** The loop [for key in result.keys()] of the mapping rule, with [equiv] for
    the recursive call.  It runs over the entries of [result] in insertion
    order; [result[key]] is the value of the entry at hand. *)
Definition each_key (equiv : value -> value -> res bool)
    (result expected : list (string * value)) : res bool :=
  (fix loop (d : list (string * value)) {struct d} : res bool :=
     match d with
     | [] => Ok true
     | (key, v) :: rest =>
         w <- getitem expected key ;;
         same <- equiv v w ;;
         if negb same then Ok false else loop rest
     end) result.

(** [results_equivalent] of the host process (lines 42-80).  The tests on
    the kinds of the two arguments exclude one another, so the chain of [if]s
    is one [match]; an [isinstance(_, (int, float))] holds of a bool too. *)
Fixpoint results_equivalent (result expected : value) {struct result} : res bool :=
  (* direct equality first *)
  if py_eq result expected then Ok true else
  match result, expected with
  (* both None *)
  | VNone, VNone => Ok true
  (* lists and tuples: convert both to lists and compare *)
  | (VList l1 | VTuple l1), (VList l2 | VTuple l2) => Ok (list_eq l1 l2)
  (* dictionaries: the same keys, then value by value *)
  | VDict d1, VDict d2 =>
      if negb (key_set_eq d1 d2) then Ok false else
      each_key results_equivalent d1 d2
  (* sets: compare as sets *)
  | VSet _, VSet _ => Ok (py_eq result expected)
  (* strings: strip whitespace and compare *)
  | VStr s, VStr t => Ok (String.eqb (strip s) (strip t))
  | _, _ =>
      match as_num result, as_num expected with
      (* numbers: float precision *)
      | Some a, Some b => within_tolerance a b
      | _, _ => Ok false
      end
  end.

(** The copy of [results_equivalent] that [build_function_test_harness_flexible]
    writes into its program (lines 117-136): no rule for sets. *)
Fixpoint fn_harness_results_equivalent (result expected : value) {struct result} : res bool :=
  if py_eq result expected then Ok true else
  match result, expected with
  | VNone, VNone => Ok true
  | (VList l1 | VTuple l1), (VList l2 | VTuple l2) => Ok (list_eq l1 l2)
  | VDict d1, VDict d2 =>
      if negb (key_set_eq d1 d2) then Ok false else
      each_key fn_harness_results_equivalent d1 d2
  | VStr s, VStr t => Ok (String.eqb (strip s) (strip t))
  | _, _ =>
      match as_num result, as_num expected with
      | Some a, Some b => within_tolerance a b
      | _, _ => Ok false
      end
  end.

(** The copy that [build_class_test_harness] writes into its program
    (lines 231-250). *)
Fixpoint cls_harness_results_equivalent (result expected : value) {struct result} : res bool :=
  if py_eq result expected then Ok true else
  match result, expected with
  | VNone, VNone => Ok true
  | (VList l1 | VTuple l1), (VList l2 | VTuple l2) => Ok (list_eq l1 l2)
  | VDict d1, VDict d2 =>
      if negb (key_set_eq d1 d2) then Ok false else
      each_key cls_harness_results_equivalent d1 d2
  | VStr s, VStr t => Ok (String.eqb (strip s) (strip t))
  | _, _ =>
      match as_num result, as_num expected with
      | Some a, Some b => within_tolerance a b
      | _, _ => Ok false
      end
  end.

(** ** Task shape classifier *)

(** [is_class_based_task] (lines 83-97); a test case is the pair
    [(input, output)] built by [normalize_tests]. *)
Definition is_class_based_task (test_cases : list (value * value)) : bool :=
  match test_cases with
  | [] => false
  | (first_input, _) :: _ =>
      match first_input with
      | VList items =>
          Nat.eqb (List.length items) 2 &&
          match nth_error items 0, nth_error items 1 with
          | Some (VList names), Some (VList _) =>
              Nat.ltb 0 (List.length names) &&
              match nth_error names 0 with
              | Some (VStr _) => true
              | _ => false
              end
          | _, _ => false
          end
      | _ => false
      end
  end.

(** ** What the drivers use of Python *)

(** [bool(v)] *)
Definition truthy (v : value) : bool :=
  match v with
  | VNone => false
  | VBool b => b
  | VInt n => negb (Z.eqb n 0)
  | VFloat _ f => match f with S754_zero _ => false | _ => true end
  | VStr s => negb (String.eqb s "")
  | VList l | VTuple l | VSet l => negb (Nat.eqb (List.length l) 0)
  | VDict d => negb (Nat.eqb (List.length d) 0)
  end.

Fixpoint chars (s : string) : list value :=
  match s with
  | EmptyString => []
  | String c rest => VStr (String c EmptyString) :: chars rest
  end.

(** The items that iterating over [v] yields (unpacking, [zip]); a value that is
    not iterable raises [TypeError]. *)
Definition iterate (v : value) : res (list value) :=
  match v with
  | VList l | VTuple l | VSet l => Ok l
  | VStr s => Ok (chars s)
  | VDict d => Ok (map VStr (keys d))
  | _ => Raise TypeError
  end.

(** [len(v)] *)
Definition py_len (v : value) : res nat :=
  match v with
  | VList l | VTuple l | VSet l => Ok (List.length l)
  | VStr s => Ok (String.length s)
  | VDict d => Ok (List.length d)
  | _ => Raise TypeError
  end.

(** [zip(a, b, c)] on lists: as long as the shortest. *)
Fixpoint zip3 {A B C : Type} (a : list A) (b : list B) (c : list C) : list (A * B * C) :=
  match a, b, c with
  | x :: a', y :: b', z :: c' => (x, y, z) :: zip3 a' b' c'
  | _, _, _ => []
  end.

(** The decimal text of a counter, as an f-string prints it. *)
Definition decimal (n : nat) : string := NilZero.string_of_uint (Nat.to_uint n).

(** The line [__RESULT__:<passed>/<total>]. *)
Definition result_line (passed total : nat) : string :=
  "__RESULT__:" ++ decimal passed ++ "/" ++ decimal total.

(** What escapes a call into candidate code: an [Exception], which
    [except Exception] catches, or one of the exceptions outside that class
    ([SystemExit], [KeyboardInterrupt]), which it does not. *)
Inductive base_exn : Type := SystemExit (code : Z) | KeyboardInterrupt.

Inductive raised : Type :=
| Exn (e : exn)
| BaseExn (b : base_exn).

Inductive call (A : Type) : Type :=
| Returned (a : A)
| Throws (r : raised).
Arguments Returned {A} a.
Arguments Throws {A} r.

(** Why a case of the function driver failed inside its [try]. *)
Inductive cause : Type :=
| Mismatch (result expected : value)
| Exception (e : exn).

(** The [AssertionError]s of the two drivers, by what their message reports. *)
Inductive diagnostic : Type :=
| NoFunctionFound
| EntryPointUndefined
| CaseFailedWithException (i : nat) (c : cause)
| LengthMismatch (case_idx : nat)
| StepFailed (case_idx i : nat) (method_name result expected : value).

(** How [__run_tests__] leaves. *)
Inductive ending : Type :=
| Completed
| AssertionError (d : diagnostic)
| Uncaught (r : raised).

(** A call into candidate code, with its positional arguments. *)
Inductive call_event : Type :=
| CallFunction (args : list value)
| CallClass (args : list value)
| CallMethod (method_name : value) (args : list value).

(** What a run of a driver shows: the lines it printed, every call it made
    into candidate code, in order, and how it ended. *)
Record report (World : Type) : Type := mkReport {
  stdout : list string;
  calls : list call_event;
  final : ending;
  world : World
}.
Arguments mkReport {World}.
Arguments stdout {World}.
Arguments calls {World}.
Arguments final {World}.
Arguments world {World}.

(** ** The literal of [CASES] *)

(** A synthesizer writes each case into the harness with [py_repr] (lines
    32-39), that is with [repr], and [__run_tests__] evaluates the text
    written when it assigns [CASES].  The text is a literal of the value
    written, but for a float that is infinite or NaN: for these [repr]
    writes [inf], [-inf] or [nan], and in the harness [inf] and [nan] are
    names.  Such floats are among the values decoded from JSON ([Infinity],
    [NaN], [1e999]). *)

(** The text written for [v] holds the name [inf] or the name [nan]. *)
Fixpoint holds_name (v : value) : bool :=
  match v with
  | VFloat _ f =>
      match f with
      | S754_infinity _ | S754_nan => true
      | _ => false
      end
  | VList l | VTuple l | VSet l =>
      (fix any (l : list value) : bool :=
         match l with
         | [] => false
         | x :: rest => holds_name x || any rest
         end) l
  | VDict d =>
      (fix any (d : list (string * value)) : bool :=
         match d with
         | [] => false
         | (_, x) :: rest => holds_name x || any rest
         end) d
  | _ => false
  end.

(** What evaluating the text written for [cases] comes to in a module where
    nothing binds [inf] or [nan] (Python has no builtin of either name, so
    this is every module whose candidate code binds neither): the values
    written, or the [NameError] of the first name met. *)
Definition evaluate_literal {A : Type} (holds : A -> bool) (cases : list A)
    : res (list A) :=
  if existsb holds cases then Raise NameError else Ok cases.

(** The cases of the function-shaped harness (lines 105-110, 178-180). *)
Definition case_holds_name (c : value * value) : bool :=
  holds_name (fst c) || holds_name (snd c).

Definition cases_literal (cases : list (value * value)) : res (list (value * value)) :=
  evaluate_literal case_holds_name cases.

(** The cases of the object-shaped harness (lines 220-227, 258-260). *)
Definition class_case_holds_name (c : value * value * value) : bool :=
  let '(methods, args_list, expected_list) := c in
  holds_name methods || holds_name args_list || holds_name expected_list.

Definition class_cases_literal (CASES : list (value * value * value))
    : res (list (value * value * value)) :=
  evaluate_literal class_case_holds_name CASES.

(** ** The function-shaped driver *)

Module FunctionHarness.
Section Driver.

(** The state of the interpreter that candidate code can read and change. *)
Variable World : Type.

(** A function of the candidate, called with positional arguments. *)
Definition callable : Type := list value -> World -> call value * World.

(** The arguments of the call: the items of [args], unpacked, if [args] is a
    list, else [args] alone. *)
Definition positional (args : value) : list value :=
  match args with
  | VList l => l
  | _ => [args]
  end.

(** The [for] loop of [__run_tests__] (lines 184-197) from case [i] on, and
    the [print] after it (line 199).  The [AssertionError] of a mismatch is
    raised inside the [try], so it is caught and raised again by the
    [except Exception] clause like any exception of the call. *)
Fixpoint run_cases (fn : callable) (CASES : list (value * value))
    (i passed total : nat) (log : list call_event) (w : World) : report World :=
  match CASES with
  | [] => mkReport [result_line passed total] log Completed w
  | (args, expected) :: rest =>
      let total := S total in
      let (r, w') := fn (positional args) w in
      let log := (log ++ [CallFunction (positional args)])%list in
      match r with
      | Returned result =>
          match fn_harness_results_equivalent result expected with
          | Ok true => run_cases fn rest (S i) (S passed) total log w'
          | Ok false =>
              mkReport [] log
                (AssertionError (CaseFailedWithException i (Mismatch result expected))) w'
          | Raise e =>
              mkReport [] log (AssertionError (CaseFailedWithException i (Exception e))) w'
          end
      | Throws (Exn e) =>
          mkReport [] log (AssertionError (CaseFailedWithException i (Exception e))) w'
      | Throws (BaseExn b) => mkReport [] log (Uncaught (BaseExn b)) w'
      end
  end.

(** [__run_tests__] (lines 168-199).  [fn] is what the lookup of the entry
    point, then [find_user_function], resolved to (lines 170-176).  [CASES]
    is what evaluating the text written by [py_repr] comes to when [CASES]
    is assigned (lines 178-180), after [fn] is: the values of the cases, or
    the exception raised, which nothing catches. *)
Definition run_tests (fn : option callable) (CASES : res (list (value * value)))
    (w : World) : report World :=
  match fn with
  | None => mkReport [] [] (AssertionError NoFunctionFound) w
  | Some fn =>
      match CASES with
      | Raise e => mkReport [] [] (Uncaught (Exn e)) w
      | Ok CASES => run_cases fn CASES 0 0 0 [] w
      end
  end.

End Driver.
End FunctionHarness.

(** ** The object-shaped driver *)

Module ClassHarness.
Section Driver.

Variable World : Type.
(** Instances of the candidate's class, and their bound methods. *)
Variable Obj Method : Type.

(** The class the entry point names: its constructor, attribute lookup on
    an instance, and the call of a bound method. *)
Record candidate : Type := mkCandidate {
  construct : list value -> World -> call Obj * World;
  getattr : Obj -> value -> World -> call Method * World;
  invoke : Method -> list value -> World -> call value * World
}.

(** The arguments of the call: the items of [method_args], unpacked, if
    [method_args] is true; none otherwise. *)
Definition positional (method_args : value) : res (list value) :=
  if truthy method_args then iterate method_args else Ok [].

(** The inner loop (lines 271-287) over the steps of one case, from step [i]
    on.  [obj] is [None] until step 0 has run. *)
Fixpoint run_steps (cls : candidate) (case_idx : nat) (steps : list (value * value * value))
    (i : nat) (obj : option Obj) (log : list call_event) (w : World) : report World :=
  match steps with
  | [] => mkReport [] log Completed w
  | (method_name, method_args, expected) :: rest =>
      let check (result : value) (obj : option Obj) (log : list call_event) (w : World) :=
        match cls_harness_results_equivalent result expected with
        | Ok true => run_steps cls case_idx rest (S i) obj log w
        | Ok false =>
            mkReport [] log
              (AssertionError (StepFailed case_idx i method_name result expected)) w
        | Raise e => mkReport [] log (Uncaught (Exn e)) w
        end in
      if Nat.eqb i 0 then
        match positional method_args with
        | Raise e => mkReport [] log (Uncaught (Exn e)) w
        | Ok args =>
            let (r, w') := construct cls args w in
            let log := (log ++ [CallClass args])%list in
            match r with
            | Throws x => mkReport [] log (Uncaught x) w'
            | Returned o => check VNone (Some o) log w'
            end
        end
      else
        match obj with
        | None => mkReport [] log (Uncaught (Exn AttributeError)) w
        | Some o =>
            let (m, w1) := getattr cls o method_name w in
            match m with
            | Throws x => mkReport [] log (Uncaught x) w1
            | Returned method =>
                match positional method_args with
                | Raise e => mkReport [] log (Uncaught (Exn e)) w1
                | Ok args =>
                    let (r, w2) := invoke cls method args w1 in
                    let log := (log ++ [CallMethod method_name args])%list in
                    match r with
                    | Throws x => mkReport [] log (Uncaught x) w2
                    | Returned result => check result obj log w2
                    end
                end
            end
        end
  end.

(** [len(methods) != len(args_list) or len(methods) != len(expected_list)] *)
Definition length_mismatch (methods args_list expected_list : value) : res bool :=
  n <- py_len methods ;;
  a <- py_len args_list ;;
  if negb (Nat.eqb n a) then Ok true else
  n <- py_len methods ;;
  e <- py_len expected_list ;;
  Ok (negb (Nat.eqb n e)).

(** The outer loop (lines 264-289) from case [case_idx] on, and the [print]
    after it (line 291). *)
Fixpoint run_cases (cls : candidate) (CASES : list (value * value * value))
    (case_idx passed total : nat) (log : list call_event) (w : World) : report World :=
  match CASES with
  | [] => mkReport [result_line passed total] log Completed w
  | (methods, args_list, expected_list) :: rest =>
      let total := S total in
      match length_mismatch methods args_list expected_list with
      | Raise e => mkReport [] log (Uncaught (Exn e)) w
      | Ok true => mkReport [] log (AssertionError (LengthMismatch case_idx)) w
      | Ok false =>
          match
            (ms <- iterate methods ;; az <- iterate args_list ;;
             es <- iterate expected_list ;; Ok (zip3 ms az es))
          with
          | Raise e => mkReport [] log (Uncaught (Exn e)) w
          | Ok steps =>
              let r := run_steps cls case_idx steps 0 None log w in
              match final r with
              | Completed => run_cases cls rest (S case_idx) (S passed) total (calls r) (world r)
              | _ => r
              end
          end
      end
  end.

(** [__run_tests__] (lines 252-291).  [cls] is what the entry point names,
    if the candidate defines it (lines 253-256).  [CASES] is what evaluating
    the text written by [py_repr] comes to when [CASES] is assigned (lines
    258-260), after [cls] is: the values of the cases, or the exception
    raised, which nothing catches. *)
Definition run_tests (cls : option candidate)
    (CASES : res (list (value * value * value))) (w : World) : report World :=
  match cls with
  | None => mkReport [] [] (AssertionError EntryPointUndefined) w
  | Some cls =>
      match CASES with
      | Raise e => mkReport [] [] (Uncaught (Exn e)) w
      | Ok CASES => run_cases cls CASES 0 0 0 [] w
      end
  end.

End Driver.
End ClassHarness.

(** ** The sandbox executor *)

(** What became of running the program: the child process ended,
    [subprocess.run] raised [TimeoutExpired], or something else raised while
    the file was written or the process launched ([trace] is the text of
    [traceback.format_exc()]). *)
Inductive execution : Type :=
| Exited (returncode : Z) (out err : string)
| TimedOut
| Failed (trace : string).

(** [needle in hay] *)
Fixpoint contains (needle hay : string) : bool :=
  String.prefix needle hay ||
  match hay with
  | EmptyString => false
  | String _ rest => contains needle rest
  end.

(** [run_file_and_capture] (lines 315-343), by what the execution came to.
    The temporary file does not bear on the result. *)
Definition run_file_and_capture (run : execution) : bool * string :=
  match run with
  | Exited returncode stdout stderr =>
      let out := stdout ++ stderr in
      if Z.eqb returncode 0 && contains "__RESULT__" out then (true, out) else (false, out)
  | TimedOut => (false, "TimeoutExpired")
  | Failed trace => (false, trace)
  end.

(** The lines of a text. *)
Fixpoint lines (s : string) : list string :=
  match s with
  | EmptyString => [EmptyString]
  | String c rest =>
      if Ascii.eqb c "010" then EmptyString :: lines rest
      else
        match lines rest with
        | [] => [String c EmptyString]
        | l :: more => String c l :: more
        end
  end.

(** The text holds a line of the exact form [__RESULT__:<passed>/<total>]. *)
Definition has_result_line (out : string) : Prop :=
  exists passed total : nat, In (result_line passed total) (lines out).

(** ** The code extractor *)

(** [re.IGNORECASE] on the letters of the pattern: an upper-case ASCII letter
    is its lower-case one; no other character matches a letter of
    [python]. *)
Definition lower (c : ascii) : ascii :=
  let n := nat_of_ascii c in
  if ((65 <=? n) && (n <=? 90))%nat then ascii_of_nat (n + 32) else c.

Definition char_matches (ignore_case : bool) (p c : ascii) : bool :=
  if ignore_case then Ascii.eqb (lower p) (lower c) else Ascii.eqb p c.

(** The literal [pat] matched at the head of [s]: what follows it. *)
Fixpoint match_literal (ignore_case : bool) (pat s : string) : option string :=
  match pat with
  | EmptyString => Some s
  | String p pat' =>
      match s with
      | EmptyString => None
      | String c s' =>
          if char_matches ignore_case p c then match_literal ignore_case pat' s' else None
      end
  end.

Definition fence : string := "```".

(** The lazy group followed by the closing fence: the text of [s] before its
    first fence, if it has one. *)
Fixpoint until_fence (s : string) : option string :=
  match match_literal false fence s with
  | Some _ => Some EmptyString
  | None =>
      match s with
      | EmptyString => None
      | String c rest => option_map (String c) (until_fence rest)
      end
  end.

(** A match of [opener], white space, a lazy group and a fence, at the head
    of [s]: the group.  The greedy white space takes all there is; giving
    some back finds no other fence. *)
Definition block_at (ignore_case : bool) (opener s : string) : option string :=
  match match_literal ignore_case opener s with
  | Some rest => until_fence (lstrip rest)
  | None => None
  end.

(** The first element of [re.findall]: the group of the leftmost match. *)
Fixpoint first_block (ignore_case : bool) (opener s : string) : option string :=
  match block_at ignore_case opener s with
  | Some group => Some group
  | None =>
      match s with
      | EmptyString => None
      | String _ rest => first_block ignore_case opener rest
      end
  end.

(** [extract_code] (lines 14-29) *)
Definition extract_code (response : value) : string :=
  match response with
  | VStr r =>
      match first_block true "```python" r with
      | Some group => strip group
      | None =>
          match first_block false "```" r with
          | Some group => strip group
          | None => strip r
          end
      end
  | _ => EmptyString
  end.

(** ** Test cases *)

(** [normalize_tests] (lines 299-312) *)
Definition normalize_tests (raw_tests : value) : list (value * value) :=
  match raw_tests with
  | VList tests =>
      (fix each (ts : list value) : list (value * value) :=
         match ts with
         | [] => []
         | t :: rest =>
             match t with
             | VDict d =>
                 match lookup "input" d, lookup "output" d with
                 | Some input, Some output => (input, output) :: each rest
                 | _, _ => each rest
                 end
             | _ => each rest
             end
         end) tests
  | _ => []
  end.

(** ** The host side of the harness synthesizer *)

(** What the host process can raise besides the exceptions of [exn]. *)
Inductive host_exn : Type :=
| IndexError
| UnicodeEncodeError
| Host (e : exn).

(** [v[i]] for an index [i] that is not negative.  A mapping of the model
    has string keys, so an integer is a missing key. *)
Definition subscript (v : value) (i : nat) : host_exn + value :=
  match v with
  | VList l | VTuple l =>
      match nth_error l i with
      | Some x => inr x
      | None => inl IndexError
      end
  | VStr s =>
      match String.get i s with
      | Some c => inr (VStr (String c EmptyString))
      | None => inl IndexError
      end
  | VDict _ => inl (Host KeyError)
  | _ => inl (Host TypeError)
  end.

(** The literals of [py_cases] in [build_class_test_harness] (lines 220-225),
    as the values they denote. *)
Fixpoint class_cases (cases : list (value * value))
    : host_exn + list (value * value * value) :=
  match cases with
  | [] => inr []
  | (args, expected) :: rest =>
      match subscript args 0 with
      | inl e => inl e
      | inr methods =>
          match subscript args 1 with
          | inl e => inl e
          | inr args_list =>
              match class_cases rest with
              | inl e => inl e
              | inr more => inr ((methods, args_list, expected) :: more)
              end
          end
      end
  end.

(** A synthesized harness, by what its text holds: the entry point and the
    values whose [py_repr] makes up [CASES]; the harness of no case is the
    empty text. *)
Inductive harness : Type :=
| EmptyHarness
| FunctionHarnessText (entry_point : string) (CASES : list (value * value))
| ClassHarnessText (entry_point : string) (CASES : list (value * value * value)).

(** [build_function_test_harness_flexible] (lines 100-204) *)
Definition build_function_test_harness_flexible (entry_point : string)
    (cases : list (value * value)) : harness :=
  FunctionHarnessText entry_point cases.

(** [build_class_test_harness] (lines 207-296) *)
Definition build_class_test_harness (entry_point : string)
    (cases : list (value * value)) : host_exn + harness :=
  match cases with
  | [] => inr EmptyHarness
  | (first_input, first_expected) :: _ =>
      match subscript first_input 0 with
      | inl e => inl e
      | inr methods =>
          match subscript first_input 1 with
          | inl e => inl e
          | inr args_list =>
              match class_cases cases with
              | inl e => inl e
              | inr CASES => inr (ClassHarnessText entry_point CASES)
              end
          end
      end
  end.

(** ** Resolving the entry point of the function-shaped harness *)

Module Resolution.
Section Names.

Variable World : Type.

(** An object bound to a name: whether it is a [types.FunctionType], its
    [__name__], and what calling it does. *)
Record pyobject : Type := mkObject {
  is_function : bool;
  dunder_name : string;
  call_object : FunctionHarness.callable World
}.

(** A namespace, in the order of its [items()]. *)
Definition namespace : Type := list (string * pyobject).

(** The names that [find_user_function] leaves out (line 153). *)
Definition harness_names : list string :=
  ["results_equivalent"; "find_user_function"; "__run_tests__"].

Definition is_user_function (binding : string * pyobject) : bool :=
  is_function (snd binding) &&
  negb (String.prefix "__" (fst binding)) &&
  negb (existsb (String.eqb (fst binding)) harness_names).

(** The list [user_functions] (lines 148-154). *)
Definition user_functions (current_globals : namespace) : list pyobject :=
  map snd (filter is_user_function current_globals).

(** [find_user_function] (lines 138-166) *)
Definition find_user_function (entry_point : string) (current_globals : namespace)
    : option pyobject :=
  match user_functions current_globals with
  | [] => None
  | [only] => Some only
  | first :: _ =>
      match find (fun func => String.eqb (dunder_name func) entry_point)
                 (user_functions current_globals) with
      | Some func => Some func
      | None => Some first
      end
  end.

(** The local variables of the function-shaped [__run_tests__]: to read one
    of them before it is assigned raises [UnboundLocalError], a
    [NameError]. *)
Definition run_tests_locals : list string :=
  ["fn"; "CASES"; "passed"; "total"; "i"; "args"; "expected"; "result"; "e"].

(** The value of the name [name] inside [__run_tests__], [None] for a
    [NameError]: a global, or else a builtin. *)
Definition load_name (current_globals builtins : namespace) (name : string)
    : option pyobject :=
  if existsb (String.eqb name) run_tests_locals then None
  else
    match lookup name current_globals with
    | Some obj => Some obj
    | None => lookup name builtins
    end.

(** What [fn] is bound to when the cases start (lines 170-176), for an
    entry point that is an identifier; [None] when [__run_tests__] raises
    its [AssertionError] instead. *)
Definition resolve (entry_point : string) (current_globals builtins : namespace)
    : option pyobject :=
  match load_name current_globals builtins entry_point with
  | Some obj => Some obj
  | None => find_user_function entry_point current_globals
  end.

(** [__run_tests__] of the function-shaped harness, resolution included;
    [CASES] is what evaluating the literal of the cases comes to. *)
Definition run_harness (entry_point : string) (CASES : res (list (value * value)))
    (current_globals builtins : namespace) (w : World) : report World :=
  FunctionHarness.run_tests World
    (option_map call_object (resolve entry_point current_globals builtins)) CASES w.

End Names.
End Resolution.

(** ** The batch loop *)

Module Batch.
Section Loop.

(** The program given to the sandbox executor: the candidate's code and,
    after it, the harness. *)
Record program : Type := mkProgram {
  llm_code : string;
  appended : harness
}.

(** What running a program in the sandbox comes to. *)
Variable sandbox : program -> execution.

(** A line of the evaluation report. *)
Record verdict : Type := mkVerdict {
  dataset_index : value;
  task_id : value;
  entry_point : value;
  passed : bool;
  runner_output : string;
  is_class_based : bool
}.

(** The counters of [main] and the report written so far. *)
Record tally : Type := mkTally {
  total : nat;
  passed_count : nat;
  evaluated : nat;
  written : list verdict
}.

(** The line of a verdict can be written to the report: [json.dumps] leaves
    every character as it is ([ensure_ascii=False]) and the file is encoded
    in UTF-8, which has no encoding for a lone surrogate.  The characters of
    the embedding do not tell a surrogate from another, so which lines can
    be encoded is left open. *)
Variable encodable : verdict -> bool.

(** [d.get(key, default)]; only a mapping has [get]. *)
Definition get (d : value) (key : string) (default : value) : host_exn + value :=
  match d with
  | VDict entries =>
      inr (match lookup key entries with Some v => v | None => default end)
  | _ => inl (Host AttributeError)
  end.

(** The harness of [main] (lines 390-394). *)
Definition build_harness (entry_point : string) (cases : list (value * value))
    : host_exn + harness :=
  if is_class_based_task cases
  then build_class_test_harness entry_point cases
  else inr (build_function_test_harness_flexible entry_point cases).

(** The body of the loop of [main] (lines 362-418) on one decoded line, in a
    run without [--verbose]: the tally when the body is left, and the
    exception that ends [main], if one is raised.  The counters are
    incremented (lines 399-402) before the line is written (lines 405-412). *)
Definition evaluate_item (item : value) (s : tally) : tally * option host_exn :=
  match get item "dataset_index" (VInt (-1)) with
  | inl e => (s, Some e)
  | inr index =>
  match get item "raw_item" (VDict []) with
  | inl e => (s, Some e)
  | inr raw =>
  match get item "response" (VStr "") with
  | inl e => (s, Some e)
  | inr response =>
  let code := extract_code response in
  match get raw "entry_point" VNone with
  | inl e => (s, Some e)
  | inr name =>
  match name with
  | VStr ep =>
      if String.eqb (strip ep) "" then (s, None) else
      match get raw "test" VNone with
      | inl e => (s, Some e)
      | inr test =>
      let cases := normalize_tests test in
      match cases with
      | [] => (s, None)
      | _ :: _ =>
          if String.eqb (strip code) "" then (s, None) else
          match build_harness (strip ep) cases with
          | inl e => (s, Some e)
          | inr text =>
          let (success, output) := run_file_and_capture (sandbox (mkProgram code text)) in
          let counted :=
            mkTally (S (total s))
              (if success then S (passed_count s) else passed_count s)
              (S (evaluated s))
              (written s) in
          match get raw "task_id" (VStr "unknown") with
          | inl e => (counted, Some e)
          | inr id =>
              let line := mkVerdict index id name success output
                            (is_class_based_task cases) in
              if encodable line
              then (mkTally (total counted) (passed_count counted) (evaluated counted)
                      (written counted ++ [line])%list, None)
              else (counted, Some UnicodeEncodeError)
          end
          end
      end
      end
  | _ => (s, None)
  end
  end
  end
  end
  end.

(** The loop of [main]: the tally when it stops, and the exception that
    stopped it, if one did. *)
Fixpoint main_loop (items : list value) (s : tally) : tally * option host_exn :=
  match items with
  | [] => (s, None)
  | item :: rest =>
      match evaluate_item item s with
      | (s', None) => main_loop rest s'
      | stopped => stopped
      end
  end.

(** [main] on the decoded lines of the results file. *)
Definition main (items : list value) : tally * option host_exn :=
  main_loop items (mkTally 0 0 0 []).

End Loop.
End Batch.

(** * Vocabulary of the statements *)

(** ** Induction on values *)

Section ValueInduction.

Variable P : value -> Prop.
Hypothesis HNone : P VNone.
Hypothesis HBool : forall b, P (VBool b).
Hypothesis HInt : forall n, P (VInt n).
Hypothesis HFloat : forall oid f, P (VFloat oid f).
Hypothesis HStr : forall s, P (VStr s).
Hypothesis HList : forall l, Forall P l -> P (VList l).
Hypothesis HTuple : forall l, Forall P l -> P (VTuple l).
Hypothesis HDict : forall d, Forall (fun kv => P (snd kv)) d -> P (VDict d).
Hypothesis HSet : forall l, Forall P l -> P (VSet l).

Fixpoint value_nested_ind (v : value) : P v :=
  let all :=
    fix all (l : list value) : Forall P l :=
      match l with
      | [] => Forall_nil P
      | x :: r => Forall_cons x (value_nested_ind x) (all r)
      end in
  match v with
  | VNone => HNone
  | VBool b => HBool b
  | VInt n => HInt n
  | VFloat oid f => HFloat oid f
  | VStr s => HStr s
  | VList l => HList l (all l)
  | VTuple l => HTuple l (all l)
  | VDict d =>
      HDict d
        ((fix entries (d : list (string * value)) : Forall (fun kv => P (snd kv)) d :=
            match d with
            | [] => Forall_nil _
            | kv :: r => Forall_cons kv (value_nested_ind (snd kv)) (entries r)
            end) d)
  | VSet l => HSet l (all l)
  end.

End ValueInduction.

(** ** Values as Python builds them *)

(** No key twice. *)
Fixpoint distinct (l : list string) : bool :=
  match l with
  | [] => true
  | k :: rest => negb (existsb (String.eqb k) rest) && distinct rest
  end.

(** A value as Python can build it: the keys of a mapping are distinct, at
    every depth. *)
Fixpoint well_formed (v : value) : bool :=
  match v with
  | VList l | VTuple l | VSet l => forallb well_formed l
  | VDict d => distinct (keys d) && forallb (fun kv => well_formed (snd kv)) d
  | _ => true
  end.


(** The value is a float NaN. *)
Definition is_nan_value (v : value) : bool :=
  match v with
  | VFloat _ f => Float.is_nan f
  | _ => false
  end.

(** A float of the model is a binary64 value: its mantissa and exponent are
    in canonical form. *)
Definition valid_float (f : spec_float) : bool := valid_binary Float.prec Float.emax f.

Definition valid_num (a : num) : bool :=
  match a with
  | NInt _ => true
  | NFloat f => valid_float f
  end.

(** Two infinities of one sign: the one pair of equal floats whose
    difference is not zero but NaN. *)
Definition same_infinity (a b : num) : bool :=
  match a, b with
  | NFloat (S754_infinity s), NFloat (S754_infinity t) => Bool.eqb s t
  | _, _ => false
  end.

(** The integer converts to a float: [float(n)] does not raise. *)
Definition fits_float (n : Z) : bool :=
  match Float.of_int n with
  | Ok _ => true
  | Raise _ => false
  end.

Definition num_fits (a : num) : bool :=
  match a with
  | NInt n => fits_float n
  | NFloat _ => true
  end.

(** Every integer in the value converts to a float. *)
Fixpoint ints_fit (v : value) : bool :=
  match v with
  | VInt n => fits_float n
  | VList l | VTuple l | VSet l => forallb ints_fit l
  | VDict d => forallb (fun kv => ints_fit (snd kv)) d
  | _ => true
  end.

(** [p * 2^k] *)
Definition shift_pos (p : positive) (k : nat) : positive := Nat.iter k xO p.

(** ** Sequences and mappings *)


(** The values of [d1] against those of [d2], key by key, as [==] compares
    two mappings of one size. *)
Definition entries_eq (d1 d2 : list (string * value)) : bool :=
  forallb (fun kv => match lookup (fst kv) d2 with
                     | Some w => item_eq (snd kv) w
                     | None => false
                     end) d1.

(** No key holds one and the same NaN object in both mappings. *)
Definition no_shared_nan (d1 d2 : list (string * value)) : bool :=
  forallb (fun kv => match lookup (fst kv) d2 with
                     | Some w => negb (same_object (snd kv) w && is_nan_value (snd kv))
                     | None => true
                     end) d1.

(** ** The values of the examples *)

Definition three : value := VInt 3.

(** The floats that the literals [3.0], [3.0000000001], [3.1] and [0.5]
    denote, each as the object [oid]. *)
Definition three_point_zero (oid : positive) : value := VFloat oid (Float.of_ratio 3 1).

Definition three_and_a_bit (oid : positive) : value :=
  VFloat oid (Float.of_ratio 30000000001 10000000000).

Definition three_point_one (oid : positive) : value := VFloat oid (Float.of_ratio 31 10).



(** The mapping [{"a": x}] around one NaN object [x]. *)
Definition nan_under_a : list (string * value) := [("a", VFloat 1 Float.nan)].

(** ** Task shapes and verdicts *)

(** The shape the specification names: a two-element list whose first
    element is a non-empty list that starts with a string. *)
Definition names_first (first_input : value) : Prop :=
  exists (name : string) (more : list value) (second : value),
    first_input = VList [VList (VStr name :: more); second].

(** The shape the code accepts: the second element is a list as well. *)
Definition names_then_args (first_input : value) : Prop :=
  exists (name : string) (more args : list value),
    first_input = VList [VList (VStr name :: more); VList args].

(** Success, as the specification states it: exit status zero and a line of
    the exact form in the combined output. *)
Definition exact_line_verdict (run : execution) : Prop :=
  exists out err, run = Exited 0 out err /\ has_result_line (out ++ err).

(** ** The function-shaped driver *)

Section FunctionDriverVocabulary.

Import FunctionHarness.

Context {World : Type} (fn : callable World).






End FunctionDriverVocabulary.

(** A candidate for the scenario of the specification, entry point [add]
    and the one case [([2, 3], 5)]: a function of two integers. *)
Definition binary_int_function (op : Z -> Z -> Z) : FunctionHarness.callable unit :=
  fun args w =>
    match args with
    | [VInt a; VInt b] => (Returned (VInt (op a b)), w)
    | _ => (Throws (Exn TypeError), w)
    end.


(** ** The object-shaped driver *)

Section ClassDriverVocabulary.

Import ClassHarness.

Context {World Obj Method : Type} (cls : candidate World Obj Method).

(** The steps after the constructor all go through on instance [o]: each
    method is found, is called and returns, and the value it returns is
    accepted by the harness's equivalence check. *)
Fixpoint later_steps_match (o : Obj) (steps : list (value * value * value))
    (w : World) : bool :=
  match steps with
  | [] => true
  | (method_name, method_args, expected) :: rest =>
      let (m, w1) := getattr _ _ _ cls o method_name w in
      match m, positional method_args with
      | Returned method, Ok args =>
          let (r, w2) := invoke _ _ _ cls method args w1 in
          match r with
          | Returned result =>
              match cls_harness_results_equivalent result expected with
              | Ok true => later_steps_match o rest w2
              | _ => false
              end
          | Throws _ => false
          end
      | _, _ => false
      end
  end.

End ClassDriverVocabulary.

(** A class whose constructor takes anything and whose methods return
    [None]. *)
Definition inert_class : ClassHarness.candidate unit unit unit :=
  ClassHarness.mkCandidate unit unit unit
    (fun _ w => (Returned tt, w))
    (fun _ _ w => (Returned tt, w))
    (fun _ _ w => (Returned VNone, w)).

(** ** Texts and fences *)

(** Only white space. *)
Fixpoint all_space (s : string) : bool :=
  match s with
  | EmptyString => true
  | String c rest => is_space c && all_space rest
  end.

(** No backtick. *)
Fixpoint no_backtick (s : string) : bool :=
  match s with
  | EmptyString => true
  | String c rest => negb (Ascii.eqb c "`") && no_backtick rest
  end.

(** Empty, or starting with another character than a backtick. *)
Definition head_other (s : string) : bool :=
  match s with
  | EmptyString => true
  | String c _ => negb (Ascii.eqb c "`")
  end.

(** No fence begins inside [s] when a fence follows it: neither within [s]
    nor with the first backticks of that fence. *)
Fixpoint no_fence_inside (s : string) : bool :=
  match s with
  | EmptyString => true
  | String c rest =>
      match match_literal false fence (s ++ "``") with
      | Some _ => false
      | None => no_fence_inside rest
      end
  end.

(** The text after the first fence of [s]. *)
Fixpoint after_first_fence (s : string) : option string :=
  match match_literal false fence s with
  | Some rest => Some rest
  | None =>
      match s with
      | EmptyString => None
      | String _ rest => after_first_fence rest
      end
  end.

(** A fence, and after it another. *)
Definition two_fences (s : string) : bool :=
  match after_first_fence s with
  | Some rest => contains fence rest
  | None => false
  end.

(** A test as the dataset writes it. *)
Definition test_of (c : value * value) : value :=
  VDict [("input", fst c); ("output", snd c)].

(** An element of the test list that [normalize_tests] passes over: not a
    mapping, or a mapping without [input] or without [output]. *)
Definition unstructured (t : value) : bool :=
  match t with
  | VDict d => negb (has_key d "input" && has_key d "output")
  | _ => true
  end.

(** ** Kinds of values *)

(** The kinds that the rules of the equivalence engine tell apart. *)
Inductive kind : Type := KNone | KNumber | KText | KSequence | KMapping | KSet.

Definition kind_of (v : value) : kind :=
  match v with
  | VNone => KNone
  | VBool _ | VInt _ | VFloat _ _ => KNumber
  | VStr _ => KText
  | VList _ | VTuple _ => KSequence
  | VDict _ => KMapping
  | VSet _ => KSet
  end.

(** ** Identifiers *)

Definition is_letter (c : ascii) : bool :=
  let n := nat_of_ascii c in
  ((65 <=? n) && (n <=? 90) || (97 <=? n) && (n <=? 122) || (n =? 95))%nat.

Definition is_digit (c : ascii) : bool :=
  let n := nat_of_ascii c in ((48 <=? n) && (n <=? 57))%nat.

Fixpoint letters_or_digits (s : string) : bool :=
  match s with
  | EmptyString => true
  | String c rest => (is_letter c || is_digit c) && letters_or_digits rest
  end.

Definition keywords : list string :=
  ["False"; "None"; "True"; "and"; "as"; "assert"; "async"; "await"; "break";
   "class"; "continue"; "def"; "del"; "elif"; "else"; "except"; "finally";
   "for"; "from"; "global"; "if"; "import"; "in"; "is"; "lambda"; "nonlocal";
   "not"; "or"; "pass"; "raise"; "return"; "try"; "while"; "with"; "yield"].

(** An ASCII identifier: the entry points for which the line
    [fn = <entry_point>] of the harness is the reading of one name. *)
Definition identifier (s : string) : bool :=
  match s with
  | EmptyString => false
  | String c rest =>
      is_letter c && letters_or_digits rest && negb (existsb (String.eqb s) keywords)
  end.

(** ** Cases of object-shaped tasks *)

(** [input[0]] and [input[1]], when both exist. *)
Definition first_two (input : value) : option (value * value) :=
  match subscript input 0, subscript input 1 with
  | inr methods, inr args_list => Some (methods, args_list)
  | _, _ => None
  end.

(** What [input[0]] or [input[1]] raises when [input] lacks the item: by
    the kind of [input]. *)
Definition subscript_error (input : value) : host_exn :=
  match input with
  | VList _ | VTuple _ | VStr _ => IndexError
  | VDict _ => Host KeyError
  | _ => Host TypeError
  end.

(** The case as the harness holds it: [(input[0], input[1], output)]. *)
Definition split_case (c : value * value) : option (value * value * value) :=
  match first_two (fst c) with
  | Some (methods, args_list) => Some (methods, args_list, snd c)
  | None => None
  end.

(** ** Items of the batch *)

(** [d.get(key, default)] on a mapping. *)
Definition field (d : list (string * value)) (key : string) (default : value) : value :=
  match lookup key d with
  | Some v => v
  | None => default
  end.

(** The item is one that [main] evaluates: its entry point is a text that
    is not blank, it has a structured test case, and its response holds
    code. *)
Definition evaluable (item : value) : bool :=
  match item with
  | VDict fields =>
      match field fields "raw_item" (VDict []) with
      | VDict raw =>
          match field raw "entry_point" VNone with
          | VStr ep =>
              negb (String.eqb (strip ep) "") &&
              negb (Nat.eqb (List.length (normalize_tests (field raw "test" VNone))) 0) &&
              negb (String.eqb (extract_code (field fields "response" (VStr ""))) "")
          | _ => false
          end
      | _ => false
      end
  | _ => false
  end.

(** The structured cases of a task. *)
Definition cases_of (raw : list (string * value)) : list (value * value) :=
  normalize_tests (field raw "test" VNone).

(** The input of the case has an item 0 and an item 1. *)
Definition splittable (c : value * value) : bool :=
  match split_case c with
  | Some _ => true
  | None => false
  end.

(** The item is one at which [main] stops with an exception: it is not a
    mapping, its [raw_item] is not one, or it is evaluated as an
    object-shaped task and one of its cases has no item 0 or no item 1. *)
Definition stops (item : value) : bool :=
  match item with
  | VDict fields =>
      match field fields "raw_item" (VDict []) with
      | VDict raw =>
          evaluable item && is_class_based_task (cases_of raw) &&
          negb (forallb splittable (cases_of raw))
      | _ => true
      end
  | _ => true
  end.

(** The item is not a mapping, or its [raw_item] is not one. *)
Definition malformed (item : value) : bool :=
  match item with
  | VDict fields =>
      match field fields "raw_item" (VDict []) with
      | VDict _ => false
      | _ => true
      end
  | _ => true
  end.

(** The tally after a verdict is recorded. *)
Definition record_verdict (s : Batch.tally) (v : Batch.verdict) : Batch.tally :=
  Batch.mkTally (S (Batch.total s))
    (if Batch.passed v then S (Batch.passed_count s) else Batch.passed_count s)
    (S (Batch.evaluated s))
    (Batch.written s ++ [v])%list.

(** The tally after a verdict is counted and before its line is written. *)
Definition count_verdict (s : Batch.tally) (v : Batch.verdict) : Batch.tally :=
  Batch.mkTally (S (Batch.total s))
    (if Batch.passed v then S (Batch.passed_count s) else Batch.passed_count s)
    (S (Batch.evaluated s))
    (Batch.written s).

(** [v] is the line that the report holds for [item]: its fields are those
    of the item, with their defaults; the entry point is reported as given,
    while the harness is built for the stripped one; the verdict and the
    output are those of the program made of the extracted code and that
    harness. *)
Definition reported (sandbox : Batch.program -> execution) (item : value)
    (v : Batch.verdict) : Prop :=
  exists fields raw ep text,
    item = VDict fields /\
    field fields "raw_item" (VDict []) = VDict raw /\
    field raw "entry_point" VNone = VStr ep /\
    Batch.build_harness (strip ep) (cases_of raw) = inr text /\
    Batch.dataset_index v = field fields "dataset_index" (VInt (-1)) /\
    Batch.task_id v = field raw "task_id" (VStr "unknown") /\
    Batch.entry_point v = VStr ep /\
    Batch.is_class_based v = is_class_based_task (cases_of raw) /\
    (Batch.passed v, Batch.runner_output v) =
      run_file_and_capture
        (sandbox (Batch.mkProgram (extract_code (field fields "response" (VStr ""))) text)).


(** The counters agree with the report written. *)
Definition consistent (s : Batch.tally) : Prop :=
  Batch.total s = Batch.evaluated s /\
  Batch.total s = List.length (Batch.written s) /\
  Batch.passed_count s = List.length (filter Batch.passed (Batch.written s)).

(** An item of one function-shaped case, for the examples. *)
Definition function_item (response : string) : value :=
  VDict [("dataset_index", VInt 7);
         ("response", VStr response);
         ("raw_item",
          VDict [("task_id", VStr "sum/1"); ("entry_point", VStr " add ");
                 ("test", VList [VDict [("input", VList [VInt 2; VInt 3]);
                                        ("output", VInt 5)]])])].

(** Every line can be encoded. *)
Definition all_encodable (v : Batch.verdict) : bool := true.

(** A sandbox that lets every program print a marker and exit with 0. *)
Definition lenient_sandbox (p : Batch.program) : execution :=
  Exited 0 "__RESULT__:1/1" "".

(** ** The calls that the object-shaped driver plans *)

(** The call of step [i]: the class at step 0, the method named at a later
    step, with the arguments of the step. *)
Definition step_call (i : nat) (step : value * value * value) : list call_event :=
  let '(method_name, method_args, _) := step in
  match ClassHarness.positional method_args with
  | Ok args => [if Nat.eqb i 0 then CallClass args else CallMethod method_name args]
  | Raise _ => []
  end.

Fixpoint steps_calls (i : nat) (steps : list (value * value * value)) : list call_event :=
  match steps with
  | [] => []
  | step :: rest => (step_call i step ++ steps_calls (S i) rest)%list
  end.

(** The steps of a case: [zip(methods, args_list, expected_list)]. *)
Definition case_steps (c : value * value * value) : list (value * value * value) :=
  let '(methods, args_list, expected_list) := c in
  match iterate methods, iterate args_list, iterate expected_list with
  | Ok ms, Ok az, Ok es => zip3 ms az es
  | _, _, _ => []
  end.

Definition planned_calls (CASES : list (value * value * value)) : list call_event :=
  flat_map (fun c => steps_calls 0 (case_steps c)) CASES.

(** What a driver shows of the score: when it completes, the literal of
    [CASES] has evaluated and the one line printed is the marker of a full
    score on as many cases; when it does not complete, no line at all. *)
Definition full_score_or_nothing {World A : Type} (CASES : res (list A))
    (r : report World) : Prop :=
  (final r = Completed /\
   exists evaluated, CASES = Ok evaluated /\
     stdout r = ["__RESULT__:" ++ decimal (List.length evaluated) ++ "/" ++
                 decimal (List.length evaluated)]) \/
  (final r <> Completed /\ stdout r = []).

(** * Properties *)

(** ** Equations of the definitions *)

Lemma py_eq_VList (l1 l2 : list value) : py_eq (VList l1) (VList l2) = list_eq l1 l2.
Proof.
  unfold list_eq. simpl. revert l2.
  induction l1 as [|x r IH]; intros [|y r2]; simpl; try reflexivity.
  now rewrite IH.
Qed.

Lemma py_eq_VTuple (l1 l2 : list value) : py_eq (VTuple l1) (VTuple l2) = list_eq l1 l2.
Proof.
  unfold list_eq. simpl. revert l2.
  induction l1 as [|x r IH]; intros [|y r2]; simpl; try reflexivity.
  now rewrite IH.
Qed.

Lemma py_eq_VDict (d1 d2 : list (string * value)) :
  py_eq (VDict d1) (VDict d2) =
  Nat.eqb (List.length d1) (List.length d2) && entries_eq d1 d2.
Proof.
  simpl. f_equal. unfold entries_eq.
  induction d1 as [|[k v] r IH]; simpl; try reflexivity.
  destruct (lookup k d2); [|reflexivity]. now rewrite IH.
Qed.

Lemma py_eq_VSet (s1 s2 : list value) :
  py_eq (VSet s1) (VSet s2) =
  Nat.eqb (List.length s1) (List.length s2) &&
  forallb (fun x => existsb (item_eq x) s2) s1.
Proof. reflexivity. Qed.

(** One unfolding of the host's [results_equivalent]. *)
Lemma results_equivalent_eq (result expected : value) :
  results_equivalent result expected =
  if py_eq result expected then Ok true else
  match result, expected with
  | VNone, VNone => Ok true
  | (VList l1 | VTuple l1), (VList l2 | VTuple l2) => Ok (list_eq l1 l2)
  | VDict d1, VDict d2 =>
      if negb (key_set_eq d1 d2) then Ok false
      else each_key results_equivalent d1 d2
  | VSet _, VSet _ => Ok (py_eq result expected)
  | VStr s, VStr t => Ok (String.eqb (strip s) (strip t))
  | _, _ =>
      match as_num result, as_num expected with
      | Some a, Some b => within_tolerance a b
      | _, _ => Ok false
      end
  end.
Proof. destruct result; reflexivity. Qed.

Lemma fn_harness_results_equivalent_eq (result expected : value) :
  fn_harness_results_equivalent result expected =
  if py_eq result expected then Ok true else
  match result, expected with
  | VNone, VNone => Ok true
  | (VList l1 | VTuple l1), (VList l2 | VTuple l2) => Ok (list_eq l1 l2)
  | VDict d1, VDict d2 =>
      if negb (key_set_eq d1 d2) then Ok false
      else each_key fn_harness_results_equivalent d1 d2
  | VStr s, VStr t => Ok (String.eqb (strip s) (strip t))
  | _, _ =>
      match as_num result, as_num expected with
      | Some a, Some b => within_tolerance a b
      | _, _ => Ok false
      end
  end.
Proof. destruct result; reflexivity. Qed.

Lemma cls_harness_results_equivalent_eq (result expected : value) :
  cls_harness_results_equivalent result expected =
  if py_eq result expected then Ok true else
  match result, expected with
  | VNone, VNone => Ok true
  | (VList l1 | VTuple l1), (VList l2 | VTuple l2) => Ok (list_eq l1 l2)
  | VDict d1, VDict d2 =>
      if negb (key_set_eq d1 d2) then Ok false
      else each_key cls_harness_results_equivalent d1 d2
  | VStr s, VStr t => Ok (String.eqb (strip s) (strip t))
  | _, _ =>
      match as_num result, as_num expected with
      | Some a, Some b => within_tolerance a b
      | _, _ => Ok false
      end
  end.
Proof. destruct result; reflexivity. Qed.

(** The loop over the keys depends on [equiv] only at the values of [result]. *)
Lemma each_key_ext (f g : value -> value -> res bool) (d1 d2 : list (string * value)) :
  Forall (fun kv => forall w, f (snd kv) w = g (snd kv) w) d1 ->
  each_key f d1 d2 = each_key g d1 d2.
Proof.
  unfold each_key. induction 1 as [|[k v] r Hv _ IH]; [reflexivity|].
  simpl in *. destruct (getitem d2 k) as [w|e]; simpl; [|reflexivity].
  rewrite Hv. destruct (g v w) as [[|]|e]; simpl; auto.
Qed.

(** ** The three copies of the equivalence routine *)

Lemma harness_copies_at (result : value) :
  forall expected,
    fn_harness_results_equivalent result expected = results_equivalent result expected /\
    cls_harness_results_equivalent result expected = results_equivalent result expected.
Proof.
  induction result using value_nested_ind; intros expected;
    rewrite results_equivalent_eq, fn_harness_results_equivalent_eq,
      cls_harness_results_equivalent_eq;
    destruct (py_eq _ expected) eqn:Heq; try (split; reflexivity);
    destruct expected; try (split; reflexivity).
  (* two sets: the host's rule returns what direct equality said, [false]
     here; what is left is two mappings, whose loops agree entry by entry *)
  destruct (negb (key_set_eq d entries)); [split; reflexivity|].
  split; apply each_key_ext; eapply Forall_impl; try exact H;
      intros kv Hkv w; apply Hkv.
Qed.

(** C9: the host's [results_equivalent] and the copies embedded in the two
    harnesses decide identically on every pair of values, an exception
    included; on two sets the host's extra rule returns the verdict of direct
    equality, so it accepts nothing that the first rule has not accepted. *)
Theorem harness_copies_agree :
  forall result expected : value,
    fn_harness_results_equivalent result expected = results_equivalent result expected /\
    cls_harness_results_equivalent result expected = results_equivalent result expected /\
    forall s1 s2 : list value,
      results_equivalent (VSet s1) (VSet s2) = Ok (py_eq (VSet s1) (VSet s2)).
Proof.
  intros result expected.
  destruct (harness_copies_at result expected) as [Hf Hc].
  repeat split; trivial.
  intros s1 s2. rewrite results_equivalent_eq.
  destruct (py_eq (VSet s1) (VSet s2)); reflexivity.
Qed.

(** ** Task shape classifier *)

(** C2, as stated, fails: a first input whose second element is not a list
    has the stated shape and is classified function-shaped. *)
Lemma is_class_based_task_needs_args_list :
  names_first (VList [VList [VStr "Stack"]; VInt 5]) /\
  is_class_based_task [(VList [VList [VStr "Stack"]; VInt 5], VNone)] = false.
Proof.
  split; [|reflexivity].
  exists "Stack", [], (VInt 5). reflexivity.
Qed.

(** C2, amended: a task is object-shaped iff it has a first case whose input
    is a two-element list, of a non-empty list that starts with a string and
    of a second list; so it is for the first input
    [[["Stack","push","pop"], [[], [1], []]]], and it is function-shaped
    for the first input [[1, 2]] and for no case at all. *)
Theorem is_class_based_task_iff :
  (forall test_cases : list (value * value),
     is_class_based_task test_cases = true <->
     exists first_input output rest,
       test_cases = (first_input, output) :: rest /\ names_then_args first_input) /\
  (forall output rest,
     is_class_based_task
       ((VList [VList [VStr "Stack"; VStr "push"; VStr "pop"];
                VList [VList []; VList [VInt 1]; VList []]], output) :: rest) = true) /\
  (forall output rest,
     is_class_based_task ((VList [VInt 1; VInt 2], output) :: rest) = false) /\
  is_class_based_task [] = false.
Proof.
  repeat split; try reflexivity.
  - intros H. destruct test_cases as [|[first_input output] rest]; [discriminate|].
    exists first_input, output, rest. split; [reflexivity|].
    destruct first_input as [| | | | |items| | |]; try discriminate.
    destruct items as [|names [|second [|]]]; try discriminate.
    destruct names as [| | | | |names| | |]; try discriminate.
    destruct second as [| | | | |args| | |]; try discriminate.
    destruct names as [|[| | | |name| | | |] more]; try discriminate.
    exists name, more, args. reflexivity.
  - intros (first_input & output & rest & -> & name & more & args & ->).
    reflexivity.
Qed.

(** ** The sandbox executor *)

Lemma contains_prefix (needle hay : string) :
  String.prefix needle hay = true -> contains needle hay = true.
Proof. intros H. destruct hay; simpl in *; rewrite H; reflexivity. Qed.

Lemma contains_tail (needle : string) (c : ascii) (hay : string) :
  contains needle hay = true -> contains needle (String c hay) = true.
Proof. intros H. simpl. rewrite H. apply orb_true_r. Qed.

Lemma lines_inv (out : string) : exists l more, lines out = l :: more.
Proof.
  destruct out as [|c out]; simpl; [eauto|].
  destruct (Ascii.eqb c "010"); [eauto|].
  destruct (lines out); eauto.
Qed.

(** What starts the first line starts the text. *)
Lemma prefix_first_line (out : string) :
  forall (needle l : string) (more : list string),
    lines out = l :: more -> String.prefix needle l = true ->
    String.prefix needle out = true.
Proof.
  induction out as [|c out IH]; intros needle l more Hl Hpre.
  - simpl in Hl. injection Hl as <- <-. exact Hpre.
  - simpl in Hl. destruct (Ascii.eqb c "010").
    + injection Hl as <- <-. destruct needle; [reflexivity | discriminate].
    + destruct (lines_inv out) as (l' & more' & Hl'). rewrite Hl' in Hl.
      injection Hl as <- <-.
      destruct needle as [|d needle]; [reflexivity|].
      simpl in *. destruct (ascii_dec d c); [|discriminate].
      eapply IH; eauto.
Qed.

(** A line of a text that starts with [needle] puts [needle] in the text. *)
Lemma contains_line (needle : string) :
  forall (out line : string),
    In line (lines out) -> String.prefix needle line = true ->
    contains needle out = true.
Proof.
  induction out as [|c out IH]; intros line Hin Hpre.
  - simpl in Hin. destruct Hin as [<-|[]]. now apply contains_prefix.
  - destruct (lines_inv (String c out)) as (l & more & Hl).
    rewrite Hl in Hin. destruct Hin as [<-|Hin].
    + apply contains_prefix. eapply prefix_first_line; eauto.
    + apply contains_tail. apply IH with (line := line); [|exact Hpre].
      simpl in Hl. destruct (Ascii.eqb c "010").
      * injection Hl as _ <-. exact Hin.
      * destruct (lines_inv out) as (l' & more' & Hl'). rewrite Hl' in Hl |- *.
        injection Hl as _ <-. now right.
Qed.

(** The result line starts with the marker. *)
Lemma result_line_marker (passed total : nat) :
  String.prefix "__RESULT__" (result_line passed total) = true.
Proof. reflexivity. Qed.

Lemma result_line_not_marker (passed total : nat) :
  result_line passed total <> "__RESULT__".
Proof. unfold result_line. simpl. discriminate. Qed.

(** C1, as stated, fails: with exit status zero and the bare marker for
    output, no line has the exact form and the verdict is success. *)
Lemma run_file_and_capture_accepts_bare_marker :
  fst (run_file_and_capture (Exited 0 "__RESULT__" "")) = true /\
  ~ exact_line_verdict (Exited 0 "__RESULT__" "").
Proof.
  split; [reflexivity|].
  intros (out & err & Heq & passed & total & Hin).
  injection Heq as <- <-. simpl in Hin.
  destruct Hin as [Hin|[]]. symmetry in Hin.
  exact (result_line_not_marker passed total Hin).
Qed.

(** C1, amended: the verdict is success iff the child exits with status zero
    and the combined output contains the text [__RESULT__], in a line of the
    exact form or anywhere else.  So an execution that exits with zero and
    prints a line of the exact form is a success, and a non-zero exit, an
    output without the marker, a timeout and an exception while launching
    are failures. *)
Theorem run_file_and_capture_verdict :
  forall run : execution,
    (fst (run_file_and_capture run) = true <->
     exists out err,
       run = Exited 0 out err /\ contains "__RESULT__" (out ++ err) = true) /\
    (exact_line_verdict run -> fst (run_file_and_capture run) = true) /\
    (forall returncode out err,
       run = Exited returncode out err -> returncode <> 0 ->
       fst (run_file_and_capture run) = false) /\
    (forall returncode out err,
       run = Exited returncode out err -> contains "__RESULT__" (out ++ err) = false ->
       fst (run_file_and_capture run) = false) /\
    (run = TimedOut -> run_file_and_capture run = (false, "TimeoutExpired")) /\
    (forall trace, run = Failed trace -> run_file_and_capture run = (false, trace)).
Proof.
  intros run.
  assert (Hiff : fst (run_file_and_capture run) = true <->
                 exists out err,
                   run = Exited 0 out err /\ contains "__RESULT__" (out ++ err) = true).
  { split.
    - destruct run as [rc out err| |trace]; simpl; try discriminate.
      destruct (Z.eqb_spec rc 0) as [->|Hrc]; simpl; [|discriminate].
      destruct (contains "__RESULT__" (out ++ err)) eqn:Hc; [|discriminate].
      intros _. exists out, err. split; [reflexivity | exact Hc].
    - intros (out & err & -> & Hc). simpl. rewrite Hc. reflexivity. }
  split; [exact Hiff|]. repeat split.
  - intros (out & err & -> & passed & total & Hin).
    apply Hiff. exists out, err. split; [reflexivity|].
    eapply contains_line; [exact Hin | apply result_line_marker].
  - intros rc out err -> Hrc. simpl.
    destruct (Z.eqb_spec rc 0); [contradiction | reflexivity].
  - intros rc out err -> Hc. simpl. rewrite Hc, andb_false_r. reflexivity.
  - intros ->. reflexivity.
  - intros trace ->. reflexivity.
Qed.

(** The theorem at an execution that exits with zero after the line
    [__RESULT__:1/1]. *)
Lemma run_file_and_capture_verdict_witness :
  fst (run_file_and_capture (Exited 0 "__RESULT__:1/1" "")) = true.
Proof.
  refine (proj1 (proj2 (run_file_and_capture_verdict (Exited 0 "__RESULT__:1/1" ""))) _).
  exists "__RESULT__:1/1", "". split; [reflexivity|].
  exists 1%nat, 1%nat. simpl. left. reflexivity.
Defined.

(** ** The function-shaped driver is fail-fast *)

Section FunctionDriverFacts.

Import FunctionHarness.

Context {World : Type} (fn : callable World).




End FunctionDriverFacts.



(** The scenario of the specification: a candidate that adds reports
    [__RESULT__:1/1]; one that subtracts is stopped before the marker. *)
Example add_scenario :
  let CASES := cases_literal [(VList [VInt 2; VInt 3], VInt 5)] in
  stdout (FunctionHarness.run_tests unit (Some (binary_int_function Z.add)) CASES tt)
    = ["__RESULT__:1/1"] /\
  stdout (FunctionHarness.run_tests unit (Some (binary_int_function Z.sub)) CASES tt)
    = [] /\
  final (FunctionHarness.run_tests unit (Some (binary_int_function Z.sub)) CASES tt)
    = AssertionError (CaseFailedWithException 0 (Mismatch (VInt (-1)) (VInt 5))).
Proof. repeat split. Qed.

(** ** Step 0 of the object-shaped driver *)

Section ClassDriverFacts.

Import ClassHarness.

Context {World Obj Method : Type} (cls : candidate World Obj Method).

(** Against the [None] that step 0 takes for its result, the check accepts
    [None] and nothing else. *)
Lemma cls_harness_results_equivalent_None (expected : value) :
  cls_harness_results_equivalent VNone expected =
  Ok (match expected with VNone => true | _ => false end).
Proof. destruct expected; reflexivity. Qed.

Lemma run_steps_later (o : Obj) (case_idx : nat) (steps : list (value * value * value)) :
  forall (i : nat) (log : list call_event) (w : World),
    later_steps_match cls o steps w = true ->
    final (run_steps World Obj Method cls case_idx steps (S i) (Some o) log w) = Completed.
Proof.
  induction steps as [|[[method_name method_args] expected] rest IH];
    intros i log w H; [reflexivity|].
  simpl in H |- *.
  destruct (getattr _ _ _ cls o method_name w) as [[method|x] w1]; [|discriminate].
  destruct (positional method_args) as [args|e]; [|discriminate].
  destruct (invoke _ _ _ cls method args w1) as [[result|x] w2]; [|discriminate].
  destruct (cls_harness_results_equivalent result expected) as [[|]|e];
    try discriminate.
  now apply IH.
Qed.

(** C3, amended: step 0 of a case calls the class with the items of
    [method_args[0]] as positional arguments, with none if that list is
    empty, and before any method.  Its result is taken to be [None] and is
    checked against [expected[0]] like the result of any other step: when
    [expected[0]] is not [None] the case stops at step 0 with the
    [AssertionError] of that step, whatever the later steps would do; when
    it is [None] and the later steps all match, the case completes. *)
Theorem class_driver_step_zero
    (case_idx : nat) (method_name method_args expected : value)
    (later : list (value * value * value))
    (log : list call_event) (w w' : World) (args : list value) (o : Obj)
    (Hargs : positional method_args = Ok args)
    (Hnew : construct _ _ _ cls args w = (Returned o, w')) :
  let r := run_steps World Obj Method cls case_idx
             ((method_name, method_args, expected) :: later) 0 None log w in
  positional (VList []) = Ok [] /\
  (forall x l, positional (VList (x :: l)) = Ok (x :: l)) /\
  (expected <> VNone ->
   final r = AssertionError (StepFailed case_idx 0 method_name VNone expected) /\
   calls r = (log ++ [CallClass args])%list) /\
  (expected = VNone -> later_steps_match cls o later w' = true -> final r = Completed) /\
  (later = [] -> calls r = (log ++ [CallClass args])%list).
Proof.
  cbv zeta. cbn [run_steps Nat.eqb]. rewrite Hargs, Hnew.
  rewrite cls_harness_results_equivalent_None.
  repeat apply conj; try reflexivity.
  - intros Hexp. destruct expected; try congruence; split; reflexivity.
  - intros -> Hlater. now apply run_steps_later.
  - intros ->. destruct expected; reflexivity.
Qed.

End ClassDriverFacts.

(** C3, as stated, fails: a case of the constructor step alone, so with no
    later step to mismatch, whose [expected[0]] is [5], does not complete:
    the driver raises the [AssertionError] of step 0 and prints nothing. *)
Lemma class_driver_checks_expected_zero :
  let CASES := [(VList [VStr "Stack"], VList [VList []], VList [VInt 5])] in
  later_steps_match inert_class tt [] tt = true /\
  ClassHarness.run_tests unit unit unit (Some inert_class) (class_cases_literal CASES) tt =
    mkReport [] [CallClass []]
      (AssertionError (StepFailed 0 0 (VStr "Stack") VNone (VInt 5))) tt /\
  ClassHarness.run_tests unit unit unit (Some inert_class)
    (class_cases_literal [(VList [VStr "Stack"], VList [VList []], VList [VNone])]) tt =
    mkReport ["__RESULT__:1/1"] [CallClass []] Completed tt.
Proof. repeat split. Qed.

(** The theorem at the stack scenario: constructor, then [push(1)]. *)
Lemma class_driver_step_zero_witness :
  final (ClassHarness.run_steps unit unit unit inert_class 0
           [(VStr "Stack", VList [], VNone); (VStr "push", VList [VInt 1], VNone)]
           0 None [] tt) = Completed.
Proof.
  refine (proj1 (proj2 (proj2 (proj2
    (class_driver_step_zero inert_class 0
       (VStr "Stack") (VList []) VNone [(VStr "push", VList [VInt 1], VNone)]
       [] tt tt [] tt eq_refl eq_refl)))) eq_refl eq_refl).
Defined.

(** ** Reflexivity *)

Lemma Float_same_refl (f : spec_float) : Float.same f f = true.
Proof.
  destruct f; simpl; rewrite ?Bool.eqb_reflx, ?Pos.eqb_refl, ?Z.eqb_refl; reflexivity.
Qed.

Lemma Float_eqb_refl (f : spec_float) : Float.is_nan f = false -> Float.eqb f f = true.
Proof.
  unfold Float.eqb, SFeqb. destruct f as [s|s| |s m e]; simpl; try discriminate;
    intros _; try (destruct s; reflexivity).
  destruct s; rewrite Z.compare_refl, Pos.compare_cont_refl; reflexivity.
Qed.

Lemma existsb_eqb_In (k : string) (l : list string) :
  existsb (String.eqb k) l = true <-> In k l.
Proof.
  rewrite existsb_exists. split.
  - intros (x & Hin & Heq). apply String.eqb_eq in Heq. now subst.
  - intros Hin. exists k. split; [exact Hin | apply String.eqb_refl].
Qed.

Lemma lookup_In {A : Type} (k : string) (v : A) (d : list (string * A)) :
  lookup k d = Some v -> In (k, v) d.
Proof.
  induction d as [|[k' v'] d IH]; simpl; [discriminate|].
  destruct (String.eqb_spec k k') as [->|Hk].
  - intros [= ->]. now left.
  - intros H. right. now apply IH.
Qed.

Lemma lookup_distinct {A : Type} (k : string) (v : A) (d : list (string * A)) :
  distinct (keys d) = true -> In (k, v) d -> lookup k d = Some v.
Proof.
  induction d as [|[k' v'] d IH]; simpl; [intros _ []|].
  intros Hd Hin. apply andb_true_iff in Hd as [Hk Hd].
  destruct Hin as [[= -> ->]|Hin].
  - now rewrite String.eqb_refl.
  - destruct (String.eqb_spec k k') as [->|Hne]; [|now apply IH].
    apply negb_true_iff in Hk.
    assert (Hin' : In k' (keys d)) by (apply (in_map fst) in Hin; exact Hin).
    apply existsb_eqb_In in Hin'. congruence.
Qed.

Lemma list_eq_refl (l : list value) :
  Forall (fun x => item_eq x x = true) l -> list_eq l l = true.
Proof.
  unfold list_eq. induction 1 as [|x l Hx _ IH]; simpl; [reflexivity|].
  now rewrite Hx, IH.
Qed.

(** A well-formed value is accepted against itself inside a container: as
    the same object when it is a float, by [==] otherwise. *)
Lemma item_eq_refl (v : value) : well_formed v = true -> item_eq v v = true.
Proof.
  unfold item_eq.
  induction v as [|b|n|oid f|s|l IH|l IH|d IH|l IH] using value_nested_ind;
    intros Hwf.
  - reflexivity.
  - destruct b; reflexivity.
  - simpl. apply Z.eqb_refl.
  - simpl. now rewrite Pos.eqb_refl, Float_same_refl.
  - simpl. apply String.eqb_refl.
  - rewrite py_eq_VList. apply list_eq_refl.
    simpl in Hwf. rewrite forallb_forall in Hwf. rewrite Forall_forall in IH |- *.
    intros x Hx. apply IH; auto.
  - rewrite py_eq_VTuple. apply list_eq_refl.
    simpl in Hwf. rewrite forallb_forall in Hwf. rewrite Forall_forall in IH |- *.
    intros x Hx. apply IH; auto.
  - rewrite py_eq_VDict, Nat.eqb_refl. simpl.
    simpl in Hwf. apply andb_true_iff in Hwf as [Hd Hwf].
    rewrite forallb_forall in Hwf. rewrite Forall_forall in IH.
    unfold entries_eq. apply forallb_forall. intros [k v] Hin. simpl.
    rewrite (lookup_distinct k v d Hd Hin).
    apply (IH (k, v) Hin). apply (Hwf (k, v) Hin).
  - rewrite py_eq_VSet, Nat.eqb_refl. simpl.
    simpl in Hwf. rewrite forallb_forall in Hwf. rewrite Forall_forall in IH.
    apply forallb_forall. intros x Hx. apply existsb_exists.
    exists x. split; [exact Hx|]. apply IH; auto.
Qed.

Lemma py_eq_refl (v : value) :
  well_formed v = true -> is_nan_value v = false -> py_eq v v = true.
Proof.
  intros Hwf Hnan. destruct v as [|b|n|oid f|s|l|l|d|l];
    try (pose proof (item_eq_refl _ Hwf) as H; exact H).
  simpl in *. now apply Float_eqb_refl.
Qed.

(** C8, as stated, fails: a NaN is not equivalent to itself. *)
Lemma results_equivalent_nan_not_reflexive :
  results_equivalent (VFloat 1 Float.nan) (VFloat 1 Float.nan) = Ok false.
Proof. reflexivity. Qed.

(** C8, amended: [results_equivalent(v, v)] is true for every value [v] of
    the kinds the engine knows, NaN excepted, also when [v] holds a NaN
    inside a container; on a NaN itself it is false. *)
Theorem results_equivalent_reflexive (v : value)
    (Hwf : well_formed v = true) (Hnan : is_nan_value v = false) :
  results_equivalent v v = Ok true /\
  forall oid, results_equivalent (VFloat oid Float.nan) (VFloat oid Float.nan) = Ok false.
Proof.
  split; [|reflexivity].
  rewrite results_equivalent_eq, py_eq_refl by assumption. reflexivity.
Qed.

(** The theorem at [{"a": [nan, 3], "b": inf}]. *)
Lemma results_equivalent_reflexive_witness :
  let v := VDict [("a", VList [VFloat 1 Float.nan; VInt 3]); ("b", VFloat 2 Float.inf)] in
  results_equivalent v v = Ok true.
Proof.
  exact (proj1 (results_equivalent_reflexive
    (VDict [("a", VList [VFloat 1 Float.nan; VInt 3]); ("b", VFloat 2 Float.inf)])
    eq_refl eq_refl)).
Defined.

(** ** Binary64 facts *)

Lemma fexp_binary64 (x : Z) : fexp Float.prec Float.emax x = Z.max (x - 53) (-1074).
Proof. reflexivity. Qed.

Lemma iter_pos_nat {A : Type} (f : A -> A) (n : positive) :
  forall x, SpecFloat.iter_pos f n x = Nat.iter (Pos.to_nat n) f x.
Proof.
  induction n as [n IH|n IH|]; intros x; cbn [SpecFloat.iter_pos].
  - rewrite !IH, Pos2Nat.inj_xI, Nat.iter_succ_r.
    replace (2 * Pos.to_nat n)%nat with (Pos.to_nat n + Pos.to_nat n)%nat by lia.
    now rewrite Nat.iter_add.
  - rewrite !IH, Pos2Nat.inj_xO.
    replace (2 * Pos.to_nat n)%nat with (Pos.to_nat n + Pos.to_nat n)%nat by lia.
    now rewrite Nat.iter_add.
  - reflexivity.
Qed.

Lemma shift_pos_value (p : positive) (k : nat) :
  Zpos (shift_pos p k) = Zpos p * 2 ^ Z.of_nat k.
Proof.
  unfold shift_pos. induction k as [|k IH].
  - simpl. lia.
  - rewrite Nat.iter_succ, Nat2Z.inj_succ, Z.pow_succ_r by lia.
    rewrite Pos2Z.inj_xO, IH. lia.
Qed.

Lemma shift_pos_digits (p : positive) (k : nat) :
  Zpos (digits2_pos (shift_pos p k)) = Zpos (digits2_pos p) + Z.of_nat k.
Proof.
  unfold shift_pos. induction k as [|k IH].
  - simpl. lia.
  - rewrite Nat.iter_succ, Nat2Z.inj_succ. simpl digits2_pos.
    rewrite Pos2Z.inj_succ, IH. lia.
Qed.

Lemma shr_shift_pos (m : positive) (k : nat) :
  Nat.iter k shr_1 (Build_shr_record (Zpos (shift_pos m k)) false false) =
  Build_shr_record (Zpos m) false false.
Proof.
  unfold shift_pos. induction k as [|k IH]; [reflexivity|].
  rewrite Nat.iter_succ_r, Nat.iter_succ. simpl. exact IH.
Qed.

Lemma shr_by_nat (mrs : shr_record) (e : Z) (k : nat) :
  shr mrs e (Z.of_nat k) = (Nat.iter k shr_1 mrs, e + Z.of_nat k).
Proof.
  destruct k as [|k].
  - simpl. now rewrite Z.add_0_r.
  - unfold shr. simpl Z.of_nat. cbv iota.
    rewrite iter_pos_nat, SuccNat2Pos.id_succ. reflexivity.
Qed.

Lemma shl_align_by_nat (p : positive) (e : Z) (j : nat) :
  shl_align p e (e - Z.of_nat j) = (shift_pos p j, e - Z.of_nat j).
Proof.
  unfold shl_align, shift_pos.
  replace (e - Z.of_nat j - e) with (- Z.of_nat j) by lia.
  destruct j as [|j].
  - simpl. now rewrite Z.sub_0_r.
  - simpl Z.of_nat. simpl Z.opp. cbv iota.
    rewrite Pos2Nat.inj_iter, SuccNat2Pos.id_succ. reflexivity.
Qed.

(** Rounding a mantissa of 53 bits, at an exponent in range, leaves it. *)
Lemma binary_round_aux_exact (s : bool) (m : positive) (e : Z) :
  Zpos (digits2_pos m) = 53 -> -1074 <= e <= 971 ->
  binary_round_aux Float.prec Float.emax s (Zpos m) e loc_Exact = S754_finite s m e.
Proof.
  intros Hd He. unfold binary_round_aux, shr_fexp.
  rewrite fexp_binary64. simpl Zdigits2. rewrite Hd.
  replace (Z.max (53 + e - 53) (-1074) - e) with 0 by lia.
  simpl shr. simpl round_nearest_even. cbv iota beta.
  rewrite fexp_binary64. simpl Zdigits2. rewrite Hd.
  replace (Z.max (53 + e - 53) (-1074) - e) with 0 by lia.
  simpl. destruct (Z.leb_spec e 971) as [_|Hgt]; [reflexivity | lia].
Qed.

(** An integer of at least 53 bits whose low bits are zero. *)
Lemma binary_round_wide (s : bool) (m : positive) (k : nat) :
  Zpos (digits2_pos m) = 53 -> Z.of_nat k <= 971 ->
  binary_round Float.prec Float.emax s (shift_pos m k) 0 = S754_finite s m (Z.of_nat k).
Proof.
  intros Hd Hk. unfold binary_round.
  rewrite fexp_binary64, shift_pos_digits, Hd.
  replace (Z.max (53 + Z.of_nat k + 0 - 53) (-1074)) with (Z.of_nat k) by lia.
  assert (Hal : shl_align (shift_pos m k) 0 (Z.of_nat k) = (shift_pos m k, 0)).
  { unfold shl_align. rewrite Z.sub_0_r. destruct (Z.of_nat k) eqn:E; try reflexivity. lia. }
  rewrite Hal. unfold binary_round_aux, shr_fexp.
  rewrite fexp_binary64. simpl Zdigits2. rewrite shift_pos_digits, Hd.
  replace (Z.max (53 + Z.of_nat k + 0 - 53) (-1074) - 0) with (Z.of_nat k) by lia.
  simpl shr_record_of_loc. rewrite shr_by_nat, shr_shift_pos.
  simpl round_nearest_even. cbv iota beta. rewrite Z.add_0_l.
  rewrite fexp_binary64. simpl Zdigits2. rewrite Hd.
  replace (Z.max (53 + Z.of_nat k - 53) (-1074) - Z.of_nat k) with 0 by lia.
  simpl. destruct (Z.leb_spec (Z.of_nat k) 971) as [_|Hgt]; [reflexivity | lia].
Qed.

(** An integer of fewer than 53 bits. *)
Lemma binary_round_narrow (s : bool) (p : positive) (j : nat) :
  Zpos (digits2_pos p) + Z.of_nat j = 53 ->
  binary_round Float.prec Float.emax s p 0 = S754_finite s (shift_pos p j) (- Z.of_nat j).
Proof.
  intros Hd. unfold binary_round.
  rewrite fexp_binary64.
  assert (Hj : Z.of_nat j <= 52) by (pose proof (Pos2Z.is_pos (digits2_pos p)); lia).
  replace (Z.max (Zpos (digits2_pos p) + 0 - 53) (-1074)) with (0 - Z.of_nat j) by lia.
  rewrite shl_align_by_nat. rewrite Z.sub_0_l.
  apply binary_round_aux_exact; [rewrite shift_pos_digits; lia | lia].
Qed.

Lemma cond_Zopp_mul (s : bool) (x y : Z) : cond_Zopp s x * y = cond_Zopp s (x * y).
Proof. destruct s; simpl; lia. Qed.

(** An integer equal to a binary64 value converts to that very float. *)
Lemma of_Z_exact (n : Z) (s : bool) (m : positive) (e : Z) :
  valid_float (S754_finite s m e) = true ->
  Float.Zeqb n (S754_finite s m e) = true ->
  Float.of_Z n = S754_finite s m e.
Proof.
  unfold valid_float, valid_binary, bounded, canonical_mantissa.
  rewrite fexp_binary64. intros Hv. apply andb_true_iff in Hv as [Hcan He].
  apply Z.eqb_eq in Hcan. apply Z.leb_le in He. change (Float.emax - Float.prec) with 971 in He.
  unfold Float.Zeqb, Float.Zcompare.
  pose proof (Pos2Z.is_pos (digits2_pos m)) as Hdm.
  destruct (Z.leb_spec 0 e) as [Hpos|Hneg].
  - destruct (cond_Zopp s (Zpos m) * 2 ^ e ?= n) eqn:Hc;
      rewrite Z.compare_antisym, Hc; simpl; try discriminate. intros _.
    apply Z.compare_eq in Hc.
    rewrite <- (Z2Nat.id e Hpos) in Hc.
    rewrite cond_Zopp_mul, <- shift_pos_value in Hc. subst n.
    unfold Float.of_Z.
    rewrite <- (Z2Nat.id e Hpos) at 2.
    destruct s; simpl; apply binary_round_wide; rewrite ?Z2Nat.id; lia.
  - destruct (cond_Zopp s (Zpos m) ?= n * 2 ^ (- e)) eqn:Hc;
      rewrite Z.compare_antisym, Hc; simpl; try discriminate. intros _.
    apply Z.compare_eq in Hc.
    assert (He' : - e = Z.of_nat (Z.to_nat (- e))) by (rewrite Z2Nat.id; lia).
    rewrite He' in Hc.
    assert (Hexp : e = - Z.of_nat (Z.to_nat (- e))) by lia.
    unfold Float.of_Z.
    destruct n as [|p|p].
    + destruct s; simpl in Hc; discriminate.
    + rewrite <- shift_pos_value in Hc.
      destruct s; simpl in Hc; [discriminate|]. injection Hc as ->.
      rewrite shift_pos_digits in Hcan.
      simpl. rewrite Hexp at 2. apply binary_round_narrow. lia.
    + change (Zneg p) with (- Zpos p) in Hc.
      rewrite Z.mul_opp_l, <- shift_pos_value in Hc.
      destruct s; simpl in Hc; [|discriminate]. injection Hc as ->.
      rewrite shift_pos_digits in Hcan.
      simpl. rewrite Hexp at 2. apply binary_round_narrow. lia.
Qed.

Lemma Float_sub_diag (s : bool) (m : positive) (e : Z) :
  Float.sub (S754_finite s m e) (S754_finite s m e) = S754_zero false.
Proof.
  unfold Float.sub, SFsub. cbv zeta. rewrite Z.sub_diag. reflexivity.
Qed.

Lemma tolerance_positive : Float.ltb (S754_zero false) Float.tolerance = true.
Proof. reflexivity. Qed.

Lemma SFcompare_finite_Eq (s1 s2 : bool) (m1 m2 : positive) (e1 e2 : Z) :
  SFcompare (S754_finite s1 m1 e1) (S754_finite s2 m2 e2) = Some Eq ->
  s1 = s2 /\ m1 = m2 /\ e1 = e2.
Proof.
  simpl. destruct s1, s2; try discriminate;
    destruct (e1 ?= e2) eqn:He; try discriminate;
    apply Z.compare_eq in He; intros [= Hm];
    [apply (f_equal CompOpp) in Hm; rewrite CompOpp_involutive in Hm; simpl in Hm|];
    apply Pos.compare_eq in Hm; auto.
Qed.

(** An integer against a float equal to it: the difference is zero. *)
Lemma within_tolerance_int_float (n : Z) (f : spec_float) :
  valid_float f = true -> Float.Zeqb n f = true ->
  exists g, Float.of_int n = Ok g /\
            Float.abs (Float.sub g f) = S754_zero false /\
            Float.abs (Float.sub f g) = S754_zero false.
Proof.
  intros Hv Heq. destruct f as [s|s| |s m e].
  - assert (n = 0) as ->.
    { unfold Float.Zeqb, Float.Zcompare in Heq.
      destruct (n ?= 0) eqn:Hc; try discriminate. now apply Z.compare_eq in Hc. }
    exists (S754_zero false). destruct s; repeat split; reflexivity.
  - destruct s; discriminate.
  - discriminate.
  - exists (S754_finite s m e). unfold Float.of_int.
    rewrite (of_Z_exact n s m e Hv Heq), Float_sub_diag. repeat split.
Qed.

(** Equal numbers, two equal infinities apart, are within the tolerance. *)
Lemma num_eq_within_tolerance (a b : num) :
  valid_num a = true -> valid_num b = true -> same_infinity a b = false ->
  num_eq a b = true -> within_tolerance a b = Ok true.
Proof.
  intros Ha Hb Hinf Heq. destruct a as [m|f], b as [n|g]; simpl in *.
  - apply Z.eqb_eq in Heq. subst n. unfold within_tolerance. simpl.
    rewrite Z.sub_diag. reflexivity.
  - destruct (within_tolerance_int_float m g Hb Heq) as (f & Hf & H1 & H2).
    unfold within_tolerance. simpl. rewrite Hf. simpl. rewrite H1. reflexivity.
  - destruct (within_tolerance_int_float n f Ha Heq) as (g & Hg & H1 & H2).
    unfold within_tolerance. simpl. rewrite Hg. simpl. rewrite H2. reflexivity.
  - unfold within_tolerance. simpl. unfold Float.eqb, SFeqb in Heq.
    destruct (SFcompare f g) as [[| |]|] eqn:Hc; try discriminate.
    destruct f as [s|s| |s m e], g as [t|t| |t m' e'];
      try (apply SFcompare_finite_Eq in Hc as (-> & -> & ->);
           rewrite Float_sub_diag; reflexivity);
      simpl in Hc; try discriminate;
      try (destruct s; discriminate); try (destruct t; discriminate).
    + destruct s, t; reflexivity.
    + destruct s, t; try discriminate; simpl in Hinf; discriminate.
Qed.

(** ** Numbers *)

(** On two numbers the engine answers by rule 1 or by rule 7. *)
Lemma results_equivalent_numbers (a b : value) (m n : num) :
  as_num a = Some m -> as_num b = Some n ->
  results_equivalent a b = if num_eq m n then Ok true else within_tolerance m n.
Proof.
  intros Ha Hb. rewrite results_equivalent_eq.
  destruct a; try discriminate; destruct b; try discriminate;
    simpl in Ha, Hb; injection Ha as <-; injection Hb as <-; reflexivity.
Qed.

(** C6, as stated, fails: two infinities of one sign are equivalent, by
    direct equality, and their absolute difference, a NaN, is not below
    [1e-9].  Nor is the difference that counts the exact one: the integer
    [2**53 + 1] is equivalent to the float [2.0**53], one apart from it,
    because the subtraction first rounds the integer to a float. *)
Lemma equal_infinities_not_within_tolerance :
  results_equivalent (VFloat 1 Float.inf) (VFloat 2 Float.inf) = Ok true /\
  as_num (VFloat 1 Float.inf) = Some (NFloat Float.inf) /\
  as_num (VFloat 2 Float.inf) = Some (NFloat Float.inf) /\
  within_tolerance (NFloat Float.inf) (NFloat Float.inf) = Ok false /\
  Float.Zeqb (2 ^ 53) (Float.of_Z (2 ^ 53)) = true /\
  results_equivalent (VInt (2 ^ 53 + 1)) (VFloat 1 (Float.of_Z (2 ^ 53))) = Ok true.
Proof. vm_compute. repeat split. Qed.

(** C6, amended: two numbers (bool, int or float in any combination) that
    are not two infinities of one sign are equivalent iff
    [abs(result - expected) < 1e-9] as Python computes it, and the engine
    raises [OverflowError] exactly when that expression does; two infinities
    of one sign are equivalent.  So 3 is equivalent to 3.0 and to
    3.0000000001, and not to 3.1. *)
Theorem numbers_equivalent_iff_within_tolerance
    (a b : value) (m n : num)
    (Ha : as_num a = Some m) (Hb : as_num b = Some n)
    (Hm : valid_num m = true) (Hn : valid_num n = true)
    (Hinf : same_infinity m n = false) :
  (results_equivalent a b = Ok true <-> within_tolerance m n = Ok true) /\
  results_equivalent a b = within_tolerance m n /\
  (forall s i j,
     results_equivalent (VFloat i (S754_infinity s)) (VFloat j (S754_infinity s)) = Ok true) /\
  (forall oid, results_equivalent three (three_point_zero oid) = Ok true) /\
  (forall oid, results_equivalent three (three_and_a_bit oid) = Ok true) /\
  (forall oid, results_equivalent three (three_point_one oid) = Ok false).
Proof.
  assert (Heq : results_equivalent a b = within_tolerance m n).
  { rewrite (results_equivalent_numbers a b m n Ha Hb).
    destruct (num_eq m n) eqn:E; [|reflexivity].
    symmetry. now apply num_eq_within_tolerance. }
  repeat apply conj; try reflexivity.
  - now rewrite Heq.
  - now rewrite Heq.
  - exact Heq.
  - intros [|] i j; reflexivity.
Qed.

(** The theorem at 3 against 3.0000000001. *)
Lemma numbers_equivalent_iff_within_tolerance_witness :
  results_equivalent three (three_and_a_bit 1) =
  within_tolerance (NInt 3) (NFloat (Float.of_ratio 30000000001 10000000000)).
Proof.
  exact (proj1 (proj2 (numbers_equivalent_iff_within_tolerance
    three (three_and_a_bit 1) (NInt 3) (NFloat (Float.of_ratio 30000000001 10000000000))
    eq_refl eq_refl eq_refl eq_refl eq_refl))).
Defined.

(** ** Mappings *)

Lemma distinct_NoDup (l : list string) : distinct l = true -> NoDup l.
Proof.
  induction l as [|k l IH]; simpl; [constructor|].
  intros H. apply andb_true_iff in H as [Hk Hl].
  constructor; [|now apply IH].
  intros Hin. apply existsb_eqb_In in Hin. rewrite Hin in Hk. discriminate.
Qed.

Lemma has_key_In {A : Type} (d : list (string * A)) (k : string) :
  has_key d k = true <-> In k (keys d).
Proof. apply existsb_eqb_In. Qed.

Lemma In_keys_lookup {A : Type} (d : list (string * A)) (k : string) :
  In k (keys d) <-> exists v, lookup k d = Some v.
Proof.
  induction d as [|[k' v'] d IH]; simpl.
  - split; [intros [] | intros [v H]; discriminate].
  - destruct (String.eqb_spec k k') as [->|Hne].
    + split; eauto.
    + rewrite <- IH. split; [intros [H|H]; congruence || exact H | now right].
Qed.

Lemma key_set_eq_iff {A B : Type} (d1 : list (string * A)) (d2 : list (string * B)) :
  key_set_eq d1 d2 = true <-> (forall k, In k (keys d1) <-> In k (keys d2)).
Proof.
  unfold key_set_eq. rewrite andb_true_iff, !forallb_forall. split.
  - intros [H1 H2] k. split; intros Hin.
    + apply has_key_In. now apply H1.
    + apply has_key_In. now apply H2.
  - intros H. split; intros k Hin; apply has_key_In; now apply H.
Qed.

(** Distinct keys, as many on each side, and those of one side among those
    of the other: the key sets are the same. *)
Lemma keys_incl_same {A B : Type} (d1 : list (string * A)) (d2 : list (string * B)) :
  distinct (keys d1) = true ->
  List.length d1 = List.length d2 ->
  (forall k, In k (keys d1) -> In k (keys d2)) ->
  forall k, In k (keys d1) <-> In k (keys d2).
Proof.
  intros Hd Hlen Hincl k. split; [apply Hincl|].
  apply (NoDup_length_incl (distinct_NoDup _ Hd)); [|exact Hincl].
  unfold keys. rewrite !length_map. now rewrite Hlen.
Qed.

(** The loop over the keys returns [True] when every entry of [result] has
    its key in [expected] and is equivalent to the value there. *)
Lemma each_key_true (f : value -> value -> res bool) (d1 d2 : list (string * value)) :
  each_key f d1 d2 = Ok true <->
  (forall k v, In (k, v) d1 -> exists w, lookup k d2 = Some w /\ f v w = Ok true).
Proof.
  unfold each_key. induction d1 as [|[k v] d1 IH].
  - split; [intros _ k v [] | reflexivity].
  - unfold getitem. split.
    + intros H k' v' Hin.
      destruct (lookup k d2) as [w|] eqn:Hw; simpl in H; [|discriminate].
      destruct (f v w) as [[|]|e] eqn:Hf; simpl in H; try discriminate.
      destruct Hin as [[= <- <-]|Hin]; [eauto|].
      now apply IH.
    + intros H.
      destruct (H k v (or_introl eq_refl)) as (w & Hw & Hf).
      rewrite Hw. simpl. rewrite Hf. simpl.
      apply IH. intros k' v' Hin. apply H. now right.
Qed.


(** It returns, when every comparison it can come to does and no key is
    missing. *)
Lemma each_key_returns (f : value -> value -> res bool) (d1 d2 : list (string * value)) :
  (forall k v, In (k, v) d1 -> exists w, lookup k d2 = Some w /\ exists x, f v w = Ok x) ->
  exists x, each_key f d1 d2 = Ok x.
Proof.
  unfold each_key. induction d1 as [|[k v] d1 IH]; intros H; [eauto|].
  destruct (H k v (or_introl eq_refl)) as (w & Hw & x & Hf).
  unfold getitem. rewrite Hw. simpl. rewrite Hf. simpl.
  destruct x; simpl; [|eauto].
  apply IH. intros k' v' Hin. apply H. now right.
Qed.

Lemma entries_eq_iff (d1 d2 : list (string * value)) :
  entries_eq d1 d2 = true <->
  (forall k v, In (k, v) d1 -> exists w, lookup k d2 = Some w /\ item_eq v w = true).
Proof.
  unfold entries_eq. rewrite forallb_forall. split.
  - intros H k v Hin. specialize (H (k, v) Hin). simpl in H.
    destruct (lookup k d2) as [w|]; [eauto | discriminate].
  - intros H [k v] Hin. simpl. destruct (H k v Hin) as (w & -> & Hw). exact Hw.
Qed.

Lemma Float_same_eq (f g : spec_float) : Float.same f g = true -> f = g.
Proof.
  destruct f as [s|s| |s m e], g as [t|t| |t n k]; simpl; try discriminate;
    try reflexivity.
  - intros H. apply Bool.eqb_prop in H. now subst.
  - intros H. apply Bool.eqb_prop in H. now subst.
  - intros H. apply andb_true_iff in H as [H He]. apply andb_true_iff in H as [Hs Hm].
    apply Bool.eqb_prop in Hs. apply Pos.eqb_eq in Hm. apply Z.eqb_eq in He.
    now subst.
Qed.

(** An item accepted inside a container is equivalent under the engine,
    unless it is accepted as one NaN object. *)
Lemma item_eq_equivalent (v w : value) :
  item_eq v w = true ->
  same_object v w && is_nan_value v = false ->
  results_equivalent v w = Ok true.
Proof.
  unfold item_eq. intros Hitem Hnan. rewrite results_equivalent_eq.
  destruct (py_eq v w) eqn:Heq; [reflexivity|].
  rewrite orb_false_r in Hitem. rewrite Hitem in Hnan. simpl in Hnan.
  destruct v; try discriminate; destruct w; try discriminate.
  simpl in Hitem, Hnan, Heq. apply andb_true_iff in Hitem as [_ Hsame].
  apply Float_same_eq in Hsame. subst.
  rewrite Float_eqb_refl in Heq by exact Hnan. discriminate.
Qed.

(** C5, as stated, fails: two mappings that hold one and the same NaN object
    under a key are equivalent, by direct equality, and the two values under
    that key are not. *)
Lemma shared_nan_mappings_equivalent :
  results_equivalent (VDict nan_under_a) (VDict nan_under_a) = Ok true /\
  lookup "a" nan_under_a = Some (VFloat 1 Float.nan) /\
  results_equivalent (VFloat 1 Float.nan) (VFloat 1 Float.nan) = Ok false.
Proof. repeat split. Qed.

(** C5, amended: two mappings, no key of which holds one and the same NaN
    object in both, are equivalent iff their key sets are identical and for
    every key the two values are equivalent under the engine itself.  So the
    order of the keys does not matter, [{"a":1,"b":2}] against
    [{"b":2,"a":1}] being true, and a value of a mapping may match within the
    numeric tolerance, as in [{"a": 3}] against [{"a": 3.0000000001}]. *)
Theorem mappings_equivalent_iff
    (d1 d2 : list (string * value))
    (Hd1 : distinct (keys d1) = true) (Hd2 : distinct (keys d2) = true)
    (Hnan : no_shared_nan d1 d2 = true) :
  (results_equivalent (VDict d1) (VDict d2) = Ok true <->
   (forall k, In k (keys d1) <-> In k (keys d2)) /\
   (forall k v w, lookup k d1 = Some v -> lookup k d2 = Some w ->
                  results_equivalent v w = Ok true)) /\
  results_equivalent (VDict [("a", VInt 1); ("b", VInt 2)])
                     (VDict [("b", VInt 2); ("a", VInt 1)]) = Ok true /\
  (forall oid, results_equivalent (VDict [("a", three)])
                                  (VDict [("a", three_and_a_bit oid)]) = Ok true).
Proof.
  repeat apply conj; try reflexivity.
  - (* equivalent: by direct equality, or by the rule for mappings *)
    rewrite results_equivalent_eq.
    destruct (py_eq (VDict d1) (VDict d2)) eqn:Heq.
    + intros _. rewrite py_eq_VDict in Heq. apply andb_true_iff in Heq as [Hlen Hent].
      apply Nat.eqb_eq in Hlen. rewrite entries_eq_iff in Hent. split.
      * apply keys_incl_same; trivial.
        intros k Hin. apply In_keys_lookup in Hin as [v Hv].
        destruct (Hent k v (lookup_In _ _ _ Hv)) as (w & Hw & _).
        apply In_keys_lookup. eauto.
      * intros k v w Hv Hw.
        destruct (Hent k v (lookup_In _ _ _ Hv)) as (w' & Hw' & Hitem).
        assert (w' = w) by congruence. subst w'.
        apply item_eq_equivalent; [exact Hitem|].
        unfold no_shared_nan in Hnan. rewrite forallb_forall in Hnan.
        specialize (Hnan (k, v) (lookup_In _ _ _ Hv)). simpl in Hnan.
        rewrite Hw in Hnan. now apply negb_true_iff in Hnan.
    + destruct (key_set_eq d1 d2) eqn:Hks; simpl; [|discriminate].
      rewrite each_key_true. intros Hall. split.
      * now apply key_set_eq_iff.
      * intros k v w Hv Hw.
        destruct (Hall k v (lookup_In _ _ _ Hv)) as (w' & Hw' & Hvw). congruence.
  - (* same keys and equivalent values: whichever rule answers accepts *)
    intros [Hkeys Hvals]. rewrite results_equivalent_eq.
    destruct (py_eq (VDict d1) (VDict d2)); [reflexivity|].
    apply key_set_eq_iff in Hkeys as Hks. rewrite Hks. simpl.
    apply each_key_true. intros k v Hin.
    assert (Hk : In k (keys d2)) by (apply (proj1 (Hkeys k)), (in_map fst _ _ Hin)).
    apply In_keys_lookup in Hk as [w Hw].
    exists w. split; [exact Hw|].
    apply (Hvals k v w); [apply lookup_distinct; assumption | exact Hw].
Qed.

(** The theorem at [{"a": 3, "b": "x "}] against [{"b": "x", "a": 3.0000000001}]. *)
Lemma mappings_equivalent_iff_witness :
  let d1 := [("a", three); ("b", VStr "x ")] in
  let d2 := [("b", VStr "x"); ("a", three_and_a_bit 1)] in
  results_equivalent (VDict d1) (VDict d2) = Ok true <->
  (forall k, In k (keys d1) <-> In k (keys d2)) /\
  (forall k v w, lookup k d1 = Some v -> lookup k d2 = Some w ->
                 results_equivalent v w = Ok true).
Proof.
  exact (proj1 (mappings_equivalent_iff
    [("a", three); ("b", VStr "x ")] [("b", VStr "x"); ("a", three_and_a_bit 1)]
    eq_refl eq_refl eq_refl)).
Defined.

(** ** Ordered sequences *)





(** ** Symmetry *)














Lemma as_num_fits (v : value) (a : num) :
  ints_fit v = true -> as_num v = Some a -> num_fits a = true.
Proof.
  destruct v; simpl; try discriminate; intros H [= <-]; trivial.
  destruct b; reflexivity.
Qed.

Lemma within_tolerance_returns (a b : num) :
  num_fits a = true -> num_fits b = true -> exists x, within_tolerance a b = Ok x.
Proof.
  unfold within_tolerance. destruct a as [m|f], b as [n|g]; simpl;
    unfold fits_float; intros Ha Hb; eauto.
  - destruct (Float.of_int m); [simpl; eauto | discriminate].
  - destruct (Float.of_int n); [simpl; eauto | discriminate].
Qed.

(** The engine returns, on values whose integers all convert to floats. *)
Lemma results_equivalent_returns (a : value) :
  ints_fit a = true -> forall b, ints_fit b = true ->
  exists x, results_equivalent a b = Ok x.
Proof.
  induction a as [|x|n|oid f|s|l IH|l IH|d IH|l IH] using value_nested_ind;
    intros Ha b Hb; rewrite results_equivalent_eq;
    destruct (py_eq _ b); eauto;
    destruct b; cbn [as_num]; eauto;
    try (apply within_tolerance_returns;
         [exact (as_num_fits _ _ Ha eq_refl) | exact (as_num_fits _ _ Hb eq_refl)]).
  destruct (key_set_eq d entries) eqn:Hks; simpl; eauto.
  apply each_key_returns. intros k v Hin.
  rewrite key_set_eq_iff in Hks.
  assert (Hk : In k (keys entries)) by (apply (proj1 (Hks k)), (in_map fst _ _ Hin)).
  apply In_keys_lookup in Hk as [w Hw]. exists w. split; [exact Hw|].
  simpl in Ha, Hb. rewrite forallb_forall in Ha, Hb. rewrite Forall_forall in IH.
  apply (IH (k, v) Hin (Ha (k, v) Hin) w). apply (Hb (k, w)), lookup_In, Hw.
Qed.







(** ** White space *)

Lemma append_empty_r (s : string) : s ++ EmptyString = s.
Proof. induction s as [|c s IH]; simpl; [reflexivity | now rewrite IH]. Qed.

Lemma append_assoc (a b c : string) : (a ++ b) ++ c = a ++ (b ++ c).
Proof. induction a as [|x a IH]; simpl; [reflexivity | now rewrite IH]. Qed.

Lemma lstrip_head (s : string) :
  match lstrip s with
  | EmptyString => True
  | String c _ => is_space c = false
  end.
Proof.
  induction s as [|c s IH]; simpl; [exact I|].
  destruct (is_space c) eqn:Hc; [exact IH | exact Hc].
Qed.

Lemma lstrip_fixed (s : string) :
  match s with
  | EmptyString => True
  | String c _ => is_space c = false
  end -> lstrip s = s.
Proof. destruct s as [|c s]; simpl; [reflexivity|]. now intros ->. Qed.

Lemma rstrip_head (c : ascii) (s : string) :
  is_space c = false -> exists kept, rstrip (String c s) = String c kept.
Proof.
  intros Hc. simpl. destruct (rstrip s); [rewrite Hc|]; eauto.
Qed.

Lemma rstrip_idempotent (s : string) : rstrip (rstrip s) = rstrip s.
Proof.
  induction s as [|c s IH]; [reflexivity|].
  simpl. destruct (rstrip s) as [|d kept] eqn:Hr.
  - destruct (is_space c) eqn:Hc; [reflexivity|]. simpl. now rewrite Hc.
  - change (rstrip (String c (String d kept)) = String c (String d kept)).
    simpl. simpl in IH. rewrite IH. reflexivity.
Qed.

(** [strip] leaves a stripped text as it is. *)
Lemma strip_idempotent (s : string) : strip (strip s) = strip s.
Proof.
  unfold strip.
  assert (H : lstrip (rstrip (lstrip s)) = rstrip (lstrip s)).
  { apply lstrip_fixed. pose proof (lstrip_head s) as Hh.
    destruct (lstrip s) as [|c r]; [exact I|].
    destruct (rstrip_head c r Hh) as [kept ->]. exact Hh. }
  rewrite H. apply rstrip_idempotent.
Qed.

Lemma lstrip_idempotent (s : string) : lstrip (lstrip s) = lstrip s.
Proof. apply lstrip_fixed, lstrip_head. Qed.

Lemma strip_lstrip (s : string) : strip (lstrip s) = strip s.
Proof. unfold strip. now rewrite lstrip_idempotent. Qed.

Lemma lstrip_space_app (ws s : string) :
  all_space ws = true -> lstrip (ws ++ s) = lstrip s.
Proof.
  induction ws as [|c ws IH]; simpl; [reflexivity|].
  intros H. apply andb_true_iff in H as [Hc Hws]. rewrite Hc. now apply IH.
Qed.

Lemma rstrip_all_space (ws : string) : all_space ws = true -> rstrip ws = EmptyString.
Proof.
  induction ws as [|c ws IH]; simpl; [reflexivity|].
  intros H. apply andb_true_iff in H as [Hc Hws]. now rewrite IH, Hc.
Qed.

Lemma rstrip_app_space (s ws : string) :
  all_space ws = true -> rstrip (s ++ ws) = rstrip s.
Proof.
  intros Hws. induction s as [|c s IH]; simpl.
  - now apply rstrip_all_space.
  - now rewrite IH.
Qed.

Lemma lstrip_app (a b : string) :
  lstrip (a ++ b) = if all_space a then lstrip b else lstrip a ++ b.
Proof.
  induction a as [|c a IH]; simpl; [reflexivity|].
  destruct (is_space c); simpl; [exact IH | reflexivity].
Qed.

Lemma strip_all_space (ws : string) : all_space ws = true -> strip ws = EmptyString.
Proof.
  intros H. unfold strip.
  rewrite <- (append_empty_r ws) at 1.
  rewrite (lstrip_space_app ws EmptyString H). reflexivity.
Qed.

(** ** The code extractor *)

Lemma char_matches_backtick (ignore_case : bool) (c : ascii) :
  char_matches ignore_case "`" c = true -> c = "`"%char.
Proof.
  destruct ignore_case; unfold char_matches.
  - destruct c as [[] [] [] [] [] [] [] []]; vm_compute; intros H;
      discriminate || reflexivity.
  - intros H. apply Ascii.eqb_eq in H. now subst.
Qed.

Lemma char_matches_not_backtick (p : ascii) :
  Ascii.eqb p "`" = false -> char_matches true p "`" = false.
Proof.
  destruct p as [[] [] [] [] [] [] [] []]; vm_compute; intros H;
    discriminate || reflexivity.
Qed.

Lemma match_literal_backtick (ignore_case : bool) (pat s rest : string) :
  match_literal ignore_case (String "`" pat) s = Some rest ->
  exists s', s = String "`" s' /\ match_literal ignore_case pat s' = Some rest.
Proof.
  destruct s as [|c s']; simpl; [discriminate|].
  destruct (char_matches ignore_case "`" c) eqn:Hc; [|discriminate].
  apply char_matches_backtick in Hc. subst c. eauto.
Qed.

Lemma match_literal_app (ignore_case : bool) (pat tag rest : string) :
  match_literal ignore_case pat tag = Some EmptyString ->
  match_literal ignore_case pat (tag ++ rest) = Some rest.
Proof.
  revert tag. induction pat as [|p pat IH]; intros tag; simpl.
  - now intros [= ->].
  - destruct tag as [|c tag]; simpl; [discriminate|].
    destruct (char_matches ignore_case p c); [apply IH | discriminate].
Qed.

(** What is left after a literal has no backtick that the text had not. *)
Lemma match_literal_no_backtick (ignore_case : bool) (pat s rest : string) :
  match_literal ignore_case pat s = Some rest ->
  no_backtick s = true -> no_backtick rest = true.
Proof.
  revert s. induction pat as [|p pat IH]; intros s; simpl.
  - now intros [= ->].
  - destruct s as [|c s]; [discriminate|].
    destruct (char_matches ignore_case p c); [|discriminate].
    simpl. intros H Hs. apply andb_true_iff in Hs as [_ Hs]. eauto.
Qed.

Lemma lstrip_no_backtick (s : string) : no_backtick s = true -> no_backtick (lstrip s) = true.
Proof.
  induction s as [|c s IH]; simpl; [reflexivity|].
  intros H. destruct (is_space c); [|exact H].
  apply andb_true_iff in H as [_ H]. now apply IH.
Qed.

Lemma until_fence_no_backtick (s : string) : no_backtick s = true -> until_fence s = None.
Proof.
  induction s as [|c s IH]; [reflexivity|].
  intros H. simpl in H. apply andb_true_iff in H as [Hc Hs].
  cbn [until_fence]. unfold fence at 1. cbn [match_literal char_matches].
  rewrite Ascii.eqb_sym, (proj1 (negb_true_iff _) Hc).
  now rewrite IH.
Qed.

(** No block opens at a character that is not a backtick. *)
Lemma block_at_other (ignore_case : bool) (pat : string) (c : ascii) (s : string) :
  Ascii.eqb c "`" = false ->
  block_at ignore_case (String "`" pat) (String c s) = None.
Proof.
  intros Hc. unfold block_at.
  destruct (match_literal ignore_case (String "`" pat) (String c s)) as [rest|] eqn:Hm;
    [|reflexivity].
  apply match_literal_backtick in Hm as (s' & [= -> ->] & _). discriminate.
Qed.

Lemma block_at_empty (ignore_case : bool) (pat : string) :
  block_at ignore_case (String "`" pat) EmptyString = None.
Proof. reflexivity. Qed.

(** The search passes over a prefix without backticks. *)
Lemma first_block_skip (ignore_case : bool) (pat pre s : string) :
  no_backtick pre = true ->
  first_block ignore_case (String "`" pat) (pre ++ s) =
  first_block ignore_case (String "`" pat) s.
Proof.
  induction pre as [|c pre IH]; [reflexivity|].
  simpl no_backtick. intros H. apply andb_true_iff in H as [Hc Hpre].
  apply negb_true_iff in Hc.
  change (String c pre ++ s) with (String c (pre ++ s)).
  cbn [first_block]. rewrite (block_at_other _ _ _ _ Hc). now apply IH.
Qed.

Lemma first_block_no_backtick (ignore_case : bool) (pat s : string) :
  no_backtick s = true -> first_block ignore_case (String "`" pat) s = None.
Proof.
  intros H. rewrite <- (append_empty_r s).
  rewrite (first_block_skip _ _ _ _ H). reflexivity.
Qed.

Lemma no_fence_inside_lstrip (s : string) :
  no_fence_inside s = true -> no_fence_inside (lstrip s) = true.
Proof.
  induction s as [|c s IH]; [reflexivity|].
  intros H. cbn [lstrip]. destruct (is_space c); [|exact H].
  apply IH. cbn [no_fence_inside] in H.
  destruct (match_literal false fence (String c s ++ "``")); [discriminate | exact H].
Qed.

Lemma no_backtick_no_fence_inside (s : string) :
  no_backtick s = true -> no_fence_inside s = true.
Proof.
  induction s as [|c s IH]; [reflexivity|].
  simpl no_backtick. intros H. apply andb_true_iff in H as [Hc Hs].
  cbn [no_fence_inside]. change (String c s ++ "``") with (String c (s ++ "``")).
  unfold fence. cbn [match_literal char_matches].
  rewrite Ascii.eqb_sym, (proj1 (negb_true_iff _) Hc). now apply IH.
Qed.

(** The lazy group stops at the closing fence when no fence begins before. *)
Lemma until_fence_closing (s post : string) :
  no_fence_inside s = true -> until_fence (s ++ fence ++ post) = Some s.
Proof.
  induction s as [|c s IH]; [reflexivity|].
  intros H. cbn [no_fence_inside] in H.
  destruct (match_literal false fence (String c s ++ "``")) eqn:Hm; [discriminate|].
  change (String c s ++ fence ++ post) with (String c (s ++ fence ++ post)).
  cbn [until_fence].
  assert (Hm' : match_literal false fence (String c (s ++ fence ++ post)) = None).
  { revert Hm. unfold fence. clear.
    destruct s as [|d [|e s]]; cbn [append match_literal]; unfold char_matches;
      repeat match goal with
             | |- context [Ascii.eqb "`"%char ?x] =>
                 first [ is_var x; destruct (Ascii.eqb "`"%char x)
                       | rewrite (Ascii.eqb_refl "`"%char) ]
             end; congruence. }
  rewrite Hm', (IH H). reflexivity.
Qed.

(** The group of a block whose opener is followed by white space, a text and
    the closing fence. *)
Lemma group_of_block (ws code post : string) :
  all_space ws = true -> no_fence_inside code = true ->
  exists group, until_fence (lstrip (ws ++ code ++ fence ++ post)) = Some group /\
                strip group = strip code.
Proof.
  intros Hws Hcode. rewrite (lstrip_space_app ws _ Hws), lstrip_app.
  destruct (all_space code) eqn:Hsp.
  - exists EmptyString. split; [reflexivity|].
    now rewrite (strip_all_space code Hsp).
  - exists (lstrip code). split; [|apply strip_lstrip].
    apply until_fence_closing. now apply no_fence_inside_lstrip.
Qed.

Lemma match_literal_fence (ignore_case : bool) (pat s : string) :
  match_literal ignore_case (fence ++ pat) (fence ++ s) = match_literal ignore_case pat s.
Proof. destruct ignore_case; reflexivity. Qed.

(** X1: a block fenced and tagged [python], in any letter case, is
    extracted and stripped: whatever follows it, when the text before it has
    no backtick and no fence begins inside the block. *)
Theorem extract_code_tagged_block
    (pre tag ws code post : string)
    (Hpre : no_backtick pre = true)
    (Htag : match_literal true "python" tag = Some EmptyString)
    (Hws : all_space ws = true)
    (Hcode : no_fence_inside code = true) :
  extract_code (VStr (pre ++ fence ++ tag ++ ws ++ code ++ fence ++ post)) = strip code.
Proof.
  unfold extract_code.
  change "```python" with (fence ++ "python").
  change (fence ++ "python") with (String "`" ("``" ++ "python")) at 1.
  rewrite (first_block_skip true _ pre _ Hpre).
  change (String "`" ("``" ++ "python")) with (fence ++ "python").
  destruct (group_of_block ws code post Hws Hcode) as (group & Hgroup & Hstrip).
  assert (Hblock : block_at true (fence ++ "python")
                     (fence ++ tag ++ ws ++ code ++ fence ++ post) = Some group).
  { unfold block_at. rewrite match_literal_fence, (match_literal_app _ _ _ _ Htag).
    exact Hgroup. }
  destruct (fence ++ tag ++ ws ++ code ++ fence ++ post) eqn:E;
    cbn [first_block]; rewrite Hblock; exact Hstrip.
Qed.

(** The theorem at a reply with a sentence, a block tagged [Python] and a
    closing remark. *)
Lemma extract_code_tagged_block_witness :
  extract_code (VStr ("Here you go: " ++ fence ++ "Python" ++ " " ++
                      "def add(a, b): return a + b " ++ fence ++ " Enjoy."))
  = "def add(a, b): return a + b".
Proof.
  exact (extract_code_tagged_block "Here you go: " "Python" " "
           "def add(a, b): return a + b " " Enjoy." eq_refl eq_refl eq_refl eq_refl).
Defined.

Lemma no_backtick_head (s : string) : no_backtick s = true -> head_other s = true.
Proof. destruct s; simpl; [reflexivity|]. intros H. now apply andb_true_iff in H. Qed.

(** After a fence that no backtick follows, the search goes on behind it. *)
Lemma first_block_fence (ignore_case : bool) (pat t : string) :
  head_other t = true ->
  first_block ignore_case (fence ++ pat) (fence ++ t) =
  match block_at ignore_case (fence ++ pat) (fence ++ t) with
  | Some group => Some group
  | None => first_block ignore_case (fence ++ pat) t
  end.
Proof.
  intros Ht.
  assert (H2 : block_at ignore_case (fence ++ pat) ("``" ++ t) = None).
  { unfold block_at.
    destruct (match_literal ignore_case (fence ++ pat) ("``" ++ t)) as [r|] eqn:Hm;
      [|reflexivity].
    apply match_literal_backtick in Hm as (s1 & [= <-] & Hm).
    apply match_literal_backtick in Hm as (s2 & [= <-] & Hm).
    apply match_literal_backtick in Hm as (s3 & -> & _). discriminate. }
  assert (H1 : block_at ignore_case (fence ++ pat) ("`" ++ t) = None).
  { unfold block_at.
    destruct (match_literal ignore_case (fence ++ pat) ("`" ++ t)) as [r|] eqn:Hm;
      [|reflexivity].
    apply match_literal_backtick in Hm as (s1 & [= <-] & Hm).
    apply match_literal_backtick in Hm as (s2 & -> & _). discriminate. }
  change (fence ++ t) with (String "`" ("``" ++ t)) at 1.
  cbn [first_block]. change (String "`" ("``" ++ t)) with (fence ++ t).
  destruct (block_at ignore_case (fence ++ pat) (fence ++ t)); [reflexivity|].
  change ("``" ++ t) with (String "`" ("`" ++ t)) at 1.
  cbn [first_block]. change (String "`" ("`" ++ t)) with ("``" ++ t). rewrite H2.
  change ("`" ++ t) with (String "`" t) at 1.
  cbn [first_block]. change (String "`" t) with ("`" ++ t). rewrite H1.
  reflexivity.
Qed.

(** A word of the pattern's letters that does not start a text does not
    start it when backticks follow. *)
Lemma match_literal_before_backtick (pat body rest : string) :
  no_backtick pat = true ->
  match_literal true pat body = None ->
  match_literal true pat (body ++ String "`" rest) = None.
Proof.
  revert body. induction pat as [|p pat IH]; intros body;
    cbn [match_literal no_backtick]; [discriminate|].
  intros Hp. apply andb_true_iff in Hp as [Hp Hpat]. apply negb_true_iff in Hp.
  destruct body as [|c body]; cbn [append match_literal].
  - now rewrite (char_matches_not_backtick p Hp).
  - destruct (char_matches true p c); [now apply IH | reflexivity].
Qed.

(** No block tagged [python] in a text whose only backticks are two fences
    around a body that does not start with the tag. *)
Lemma no_tagged_block (body post : string) :
  no_backtick body = true -> no_backtick post = true ->
  match_literal true "python" body = None ->
  first_block true (fence ++ "python") (fence ++ body ++ fence ++ post) = None.
Proof.
  intros Hbody Hpost Hnot.
  assert (Hclose : first_block true (fence ++ "python") (fence ++ post) = None).
  { rewrite (first_block_fence true "python" post (no_backtick_head _ Hpost)).
    unfold block_at. rewrite match_literal_fence.
    destruct (match_literal true "python" post) as [rest|] eqn:Hm.
    - rewrite until_fence_no_backtick.
      + now apply (first_block_no_backtick true ("``" ++ "python")).
      + apply lstrip_no_backtick. eapply match_literal_no_backtick; eauto.
    - now apply (first_block_no_backtick true ("``" ++ "python")). }
  destruct body as [|c body].
  - (* six backticks in a row: the tag cannot follow any of the first three *)
    change (fence ++ EmptyString ++ fence ++ post)
      with (String "`" (String "`" (String "`" (fence ++ post)))).
    cbn [first_block].
    replace (block_at true (fence ++ "python")
               (String "`" (String "`" (String "`" (fence ++ post))))) with (@None string)
      by reflexivity.
    replace (block_at true (fence ++ "python") (String "`" (String "`" (fence ++ post))))
      with (@None string) by reflexivity.
    replace (block_at true (fence ++ "python") (String "`" (fence ++ post)))
      with (@None string) by reflexivity.
    exact Hclose.
  - assert (Hh : head_other (String c body ++ fence ++ post) = true)
      by exact (no_backtick_head _ Hbody).
    rewrite (first_block_fence true "python" _ Hh).
    unfold block_at. rewrite match_literal_fence.
    change (fence ++ post) with (String "`" ("``" ++ post)).
    rewrite (match_literal_before_backtick "python" _ _ eq_refl Hnot).
    change (String "`" ("``" ++ post)) with (fence ++ post).
    change (fence ++ "python") with (String "`" ("``" ++ "python")).
    rewrite (first_block_skip true _ _ _ Hbody).
    exact Hclose.
Qed.

(** X2: without a block tagged [python], the first fenced block is
    extracted and stripped, when the text before it, the block and the text
    after it have no backtick and the block does not start with the tag. *)
Theorem extract_code_untagged_block
    (pre body post : string)
    (Hpre : no_backtick pre = true)
    (Hbody : no_backtick body = true)
    (Hpost : no_backtick post = true)
    (Hnot : match_literal true "python" body = None) :
  extract_code (VStr (pre ++ fence ++ body ++ fence ++ post)) = strip body.
Proof.
  unfold extract_code.
  change "```python" with (String "`" ("``" ++ "python")).
  rewrite (first_block_skip true _ pre _ Hpre).
  change (String "`" ("``" ++ "python")) with (fence ++ "python").
  rewrite (no_tagged_block body post Hbody Hpost Hnot).
  change "```" with (String "`" "``") at 1.
  rewrite (first_block_skip false _ pre _ Hpre).
  destruct (group_of_block EmptyString body post eq_refl
              (no_backtick_no_fence_inside _ Hbody)) as (group & Hgroup & Hstrip).
  simpl append in Hgroup.
  change (fence ++ body ++ fence ++ post)
    with (String "`" (String "`" (String "`" (body ++ fence ++ post)))).
  assert (Hblock : block_at false "```"
                     (String "`" (String "`" (String "`" (body ++ fence ++ post))))
                   = Some group) by exact Hgroup.
  cbn [first_block]. rewrite Hblock. exact Hstrip.
Qed.

(** The theorem at a reply with an untagged block. *)
Lemma extract_code_untagged_block_witness :
  extract_code (VStr ("Code: " ++ fence ++ " x = 1 " ++ fence ++ " done")) = "x = 1".
Proof.
  exact (extract_code_untagged_block "Code: " " x = 1 " " done"
           eq_refl eq_refl eq_refl eq_refl).
Defined.

Lemma match_literal_prefix (pat s rest : string) :
  match_literal false pat s = Some rest -> String.prefix pat s = true.
Proof.
  revert s. induction pat as [|p pat IH]; intros s; [destruct s; reflexivity|].
  destruct s as [|c s]; simpl; [discriminate|].
  destruct (Ascii.eqb_spec p c) as [->|Hne]; [|discriminate].
  intros H. destruct (ascii_dec c c); [eauto | congruence].
Qed.

(** What a literal leaves is a suffix of the text. *)
Lemma contains_after_literal (ignore_case : bool) (needle pat s rest : string) :
  match_literal ignore_case pat s = Some rest ->
  contains needle rest = true -> contains needle s = true.
Proof.
  revert s. induction pat as [|p pat IH]; intros s; simpl.
  - now intros [= ->].
  - destruct s as [|c s]; [discriminate|].
    destruct (char_matches ignore_case p c); [|discriminate].
    intros H Hc. apply contains_tail. eauto.
Qed.

Lemma contains_lstrip (needle s : string) :
  contains needle (lstrip s) = true -> contains needle s = true.
Proof.
  induction s as [|c s IH]; [trivial|].
  cbn [lstrip]. destruct (is_space c); [|trivial].
  intros H. apply contains_tail. now apply IH.
Qed.

Lemma until_fence_contains (s group : string) :
  until_fence s = Some group -> contains fence s = true.
Proof.
  revert group. induction s as [|c s IH]; intros group.
  - discriminate.
  - cbn [until_fence].
    destruct (match_literal false fence (String c s)) as [rest|] eqn:Hm.
    + intros _. apply contains_prefix. eapply match_literal_prefix; eauto.
    + destruct (until_fence s) as [g|]; [|discriminate].
      intros _. apply contains_tail. now apply (IH g).
Qed.

Lemma after_first_fence_contains (needle s rest : string) :
  after_first_fence s = Some rest ->
  contains needle rest = true -> contains needle s = true.
Proof.
  induction s as [|c s IH].
  - discriminate.
  - cbn [after_first_fence].
    destruct (match_literal false fence (String c s)) as [r|] eqn:Hm.
    + intros [= ->]. eapply contains_after_literal; eauto.
    + intros H Hc. apply contains_tail. now apply IH.
Qed.

(** Two fences behind a character are two fences of the whole. *)
Lemma two_fences_tail (c : ascii) (s : string) :
  two_fences s = true -> two_fences (String c s) = true.
Proof.
  unfold two_fences. cbn [after_first_fence].
  destruct (match_literal false fence (String c s)) as [r|] eqn:Hm; [|trivial].
  destruct (after_first_fence s) as [rest|] eqn:Ha; [|discriminate].
  intros Hc.
  (* the fence at the head ends one or two characters into [s] *)
  unfold fence in Hm. apply match_literal_backtick in Hm as (s1 & [= -> <-] & Hm).
  apply match_literal_backtick in Hm as (s2 & -> & Hm).
  apply match_literal_backtick in Hm as (s3 & -> & [= <-]).
  pose proof (after_first_fence_contains fence _ _ Ha Hc) as Hs.
  cbn [after_first_fence] in Ha.
  destruct (match_literal false fence (String "`" (String "`" s3))) as [r'|] eqn:Hm2.
  - injection Ha as <-.
    unfold fence in Hm2. cbn [match_literal char_matches] in Hm2.
    rewrite Ascii.eqb_refl in Hm2.
    destruct s3 as [|d s3]; [discriminate|].
    destruct (Ascii.eqb "`" d); [|discriminate]. injection Hm2 as <-.
    now apply contains_tail.
  - cbn [after_first_fence] in Ha.
    destruct (match_literal false fence (String "`" s3)) as [r'|] eqn:Hm3.
    + injection Ha as ->.
      unfold fence in Hm3. apply match_literal_backtick in Hm3 as (s4 & [= ->] & Hm3).
      eapply contains_after_literal; eauto.
    + eapply after_first_fence_contains; eauto.
Qed.

(** A block is found only in a text with two fences. *)
Lemma first_block_two_fences (ignore_case : bool) (pat s group : string) :
  first_block ignore_case (fence ++ pat) s = Some group -> two_fences s = true.
Proof.
  induction s as [|c s IH].
  - discriminate.
  - cbn [first_block].
    destruct (block_at ignore_case (fence ++ pat) (String c s)) as [g|] eqn:Hb.
    + intros _. unfold block_at in Hb.
      destruct (match_literal ignore_case (fence ++ pat) (String c s)) as [rest|] eqn:Hm;
        [|discriminate].
      apply until_fence_contains, contains_lstrip in Hb.
      change (fence ++ pat) with (String "`" (String "`" (String "`" pat))) in Hm.
      apply match_literal_backtick in Hm as (s1 & [= -> <-] & Hm).
      apply match_literal_backtick in Hm as (s2 & -> & Hm).
      apply match_literal_backtick in Hm as (s3 & -> & Hm).
      unfold two_fences.
      replace (after_first_fence (String "`" (String "`" (String "`" s3))))
        with (Some s3) by reflexivity.
      eapply contains_after_literal; eauto.
    + intros H. apply two_fences_tail. now apply IH.
Qed.

(** X3: a reply without two fences, so without a fence or with a fence that
    is never closed, is taken whole, stripped; a reply that is not text gives
    the empty text. *)
Theorem extract_code_without_block (response : value) :
  (forall r, response = VStr r -> two_fences r = false ->
             extract_code response = strip r) /\
  ((forall r, response <> VStr r) -> extract_code response = EmptyString).
Proof.
  split.
  - intros r -> H. unfold extract_code.
    destruct (first_block true "```python" r) as [g|] eqn:H1.
    { apply (first_block_two_fences true "python") in H1. congruence. }
    destruct (first_block false "```" r) as [g|] eqn:H2.
    { apply (first_block_two_fences false EmptyString) in H2. congruence. }
    reflexivity.
  - intros H. destruct response; try reflexivity. now destruct (H s).
Qed.

(** The theorem at a reply whose fence is never closed. *)
Lemma extract_code_without_block_witness :
  let r := (fence ++ "python x = 1 ") in
  extract_code (VStr r) = fence ++ "python x = 1".
Proof.
  exact (proj1 (extract_code_without_block (VStr (fence ++ "python x = 1 ")))
           (fence ++ "python x = 1 ") eq_refl eq_refl).
Defined.

(** X4: the code extracted has no white space at either end, so it is blank
    only when it is empty. *)
Theorem extract_code_stripped (response : value) :
  strip (extract_code response) = extract_code response.
Proof.
  unfold extract_code. destruct response; try reflexivity.
  destruct (first_block true "```python" s); [apply strip_idempotent|].
  destruct (first_block false "```" s); apply strip_idempotent.
Qed.

(** ** Test cases *)

Lemma normalize_tests_app (l1 l2 : list value) :
  normalize_tests (VList (l1 ++ l2)) =
  (normalize_tests (VList l1) ++ normalize_tests (VList l2))%list.
Proof.
  induction l1 as [|t l1 IH]; [reflexivity|].
  simpl in *. destruct t; trivial.
  destruct (lookup "input" entries); trivial.
  destruct (lookup "output" entries); trivial.
  simpl. now rewrite IH.
Qed.

Lemma has_key_lookup {A : Type} (d : list (string * A)) (k : string) :
  has_key d k = false -> lookup k d = None.
Proof.
  intros H. destruct (lookup k d) as [v|] eqn:Hl; [|reflexivity].
  assert (Hin : In k (keys d)) by (apply In_keys_lookup; eauto).
  apply has_key_In in Hin. congruence.
Qed.

(** X5: [normalize_tests] returns the structured tests and nothing else, in
    their order: a list of tests written as [{"input": i, "output": o}]
    gives back the pairs; an element that is not a mapping, or lacks one of
    the two keys, is passed over without effect on the others; and what is
    not a list gives no case. *)
Theorem normalize_tests_structured :
  (forall cases, normalize_tests (VList (map test_of cases)) = cases) /\
  (forall l1 d input output l2,
     lookup "input" d = Some input -> lookup "output" d = Some output ->
     normalize_tests (VList (l1 ++ VDict d :: l2)) =
     (normalize_tests (VList l1) ++ (input, output) :: normalize_tests (VList l2))%list) /\
  (forall l1 junk l2,
     unstructured junk = true ->
     normalize_tests (VList (l1 ++ junk :: l2)) = normalize_tests (VList (l1 ++ l2))) /\
  (forall v, (forall l, v <> VList l) -> normalize_tests v = []).
Proof.
  repeat apply conj.
  - induction cases as [|[i o] cases IH]; [reflexivity|].
    simpl in *. now rewrite IH.
  - intros l1 d i o l2 Hi Ho. rewrite normalize_tests_app. f_equal.
    simpl. now rewrite Hi, Ho.
  - intros l1 junk l2 Hj. rewrite !normalize_tests_app. f_equal.
    destruct junk; try reflexivity.
    simpl in Hj |- *. apply negb_true_iff, andb_false_iff in Hj as [Hj|Hj];
      rewrite (has_key_lookup _ _ Hj); [reflexivity|].
    destruct (lookup "input" entries); reflexivity.
  - intros v Hv. destruct v; try reflexivity. now destruct (Hv items).
Qed.

(** ** More on the equivalence engine *)

Lemma lstrip_all_space (ws : string) : all_space ws = true -> lstrip ws = EmptyString.
Proof.
  induction ws as [|c ws IH]; simpl; [reflexivity|].
  intros H. apply andb_true_iff in H as [Hc Hws]. rewrite Hc. now apply IH.
Qed.

(** White space around a text does not show after [strip]. *)
Lemma strip_padded (l s r : string) :
  all_space l = true -> all_space r = true -> strip (l ++ s ++ r) = strip s.
Proof.
  intros Hl Hr. unfold strip. rewrite (lstrip_space_app l _ Hl), lstrip_app.
  destruct (all_space s) eqn:Hs.
  - now rewrite (lstrip_all_space r Hr), (lstrip_all_space s Hs).
  - now apply rstrip_app_space.
Qed.

(** X6: two texts are equivalent iff they are the same after [strip]; so
    white space at the ends of the result never matters. *)
Theorem strings_equivalent_iff (s t : string) :
  (results_equivalent (VStr s) (VStr t) = Ok true <-> strip s = strip t) /\
  (forall l r, all_space l = true -> all_space r = true ->
               results_equivalent (VStr (l ++ s ++ r)) (VStr s) = Ok true).
Proof.
  assert (H : forall a b, results_equivalent (VStr a) (VStr b) = Ok true <->
                          strip a = strip b).
  { intros a b. rewrite results_equivalent_eq. cbn [py_eq].
    destruct (String.eqb_spec a b) as [->|Hne].
    - split; reflexivity.
    - destruct (String.eqb_spec (strip a) (strip b)) as [Heq|Hs].
      + split; trivial.
      + split; [discriminate | contradiction]. }
  split; [apply H|].
  intros l r Hl Hr. apply H. now apply strip_padded.
Qed.

(** The loop over the keys raises what a comparison raises, or [KeyError]
    at a key that [expected] lacks. *)
Lemma each_key_raises (f : value -> value -> res bool) (d1 d2 : list (string * value))
    (e : exn) :
  each_key f d1 d2 = Raise e ->
  (exists k v, In (k, v) d1 /\ lookup k d2 = None) \/
  (exists k v w, In (k, v) d1 /\ lookup k d2 = Some w /\ f v w = Raise e).
Proof.
  unfold each_key. induction d1 as [|[k v] d1 IH]; [discriminate|].
  unfold getitem. intros H.
  destruct (lookup k d2) as [w|] eqn:Hw; simpl in H.
  - destruct (f v w) as [[|]|e'] eqn:Hf; simpl in H.
    + destruct (IH H) as [(k' & v' & Hin & Hl)|(k' & v' & w' & Hin & Hl & Hf')].
      * left. exists k', v'. split; [now right | exact Hl].
      * right. exists k', v', w'. split; [now right | auto].
    + discriminate.
    + injection H as <-. right. exists k, v, w. split; [now left | auto].
  - left. exists k, v. split; [now left | exact Hw].
Qed.

Lemma within_tolerance_raises (a b : num) (e : exn) :
  within_tolerance a b = Raise e -> e = OverflowError.
Proof.
  unfold within_tolerance, num_sub, Float.of_int.
  destruct a as [m|f], b as [n|g]; simpl; try discriminate.
  - destruct (Float.of_Z m); simpl; congruence.
  - destruct (Float.of_Z n); simpl; congruence.
Qed.

Lemma results_equivalent_overflow (a : value) :
  forall b e, results_equivalent a b = Raise e -> e = OverflowError.
Proof.
  induction a as [|c|n|oid f|s|l IH|l IH|d IH|l IH] using value_nested_ind;
    intros b e; rewrite results_equivalent_eq;
    (destruct (py_eq _ b); [discriminate|]);
    destruct b; cbn [as_num]; try discriminate;
    try apply within_tolerance_raises.
  destruct (key_set_eq d entries) eqn:Hks; simpl; [|discriminate].
  intros H. apply each_key_raises in H as [(k & v & Hin & Hl)|(k & v & w & Hin & Hl & Hf)].
  - rewrite key_set_eq_iff in Hks.
    assert (Hk : In k (keys entries)) by (apply (proj1 (Hks k)), (in_map fst _ _ Hin)).
    apply In_keys_lookup in Hk as [w Hw]. congruence.
  - rewrite Forall_forall in IH. exact (IH (k, v) Hin w e Hf).
Qed.

(** X7: on the values of the embedding, none of the three copies of the
    engine raises [KeyError], [TypeError] or [AttributeError]: in
    particular the rule for mappings, which compares the sets of keys
    first, never asks [expected] for a key that it lacks.  A copy raises
    [OverflowError] only when one of the two values holds an integer that
    does not convert to a float. *)
Theorem results_equivalent_exceptions (a b : value) :
  Forall (fun copy : value -> value -> res bool =>
            copy a b <> Raise KeyError /\
            copy a b <> Raise TypeError /\
            copy a b <> Raise AttributeError /\
            (copy a b = Raise OverflowError -> ints_fit a && ints_fit b = false))
    [results_equivalent; fn_harness_results_equivalent; cls_harness_results_equivalent].
Proof.
  destruct (harness_copies_at a b) as [Hf Hc].
  assert (H : results_equivalent a b <> Raise KeyError /\
              results_equivalent a b <> Raise TypeError /\
              results_equivalent a b <> Raise AttributeError /\
              (results_equivalent a b = Raise OverflowError ->
               ints_fit a && ints_fit b = false)).
  { repeat apply conj;
      try (intros H; apply results_equivalent_overflow in H; discriminate).
    intros H.
    destruct (ints_fit a) eqn:Ha; [|reflexivity].
    destruct (ints_fit b) eqn:Hb; [|reflexivity].
    destruct (results_equivalent_returns a Ha b Hb) as [x Hx]. congruence. }
  repeat constructor; try rewrite Hf; try rewrite Hc; apply H.
Qed.

(** X8: values of different kinds are never equivalent, and comparing them
    raises nothing; a boolean counts as the number it is. *)
Theorem different_kinds_not_equivalent (a b : value) :
  (kind_of a <> kind_of b -> results_equivalent a b = Ok false) /\
  (forall c : bool, results_equivalent (VBool c) (VInt (if c then 1 else 0)) = Ok true).
Proof.
  split; [|intros [|]; reflexivity].
  intros H. rewrite results_equivalent_eq.
  destruct a, b; try reflexivity; exfalso; apply H; reflexivity.
Qed.

(** The theorem at the text ["1"] against the number 1. *)
Lemma different_kinds_not_equivalent_witness :
  results_equivalent (VStr "1") (VInt 1) = Ok false.
Proof.
  refine (proj1 (different_kinds_not_equivalent (VStr "1") (VInt 1)) _).
  discriminate.
Defined.

(** ** Resolving the entry point *)

Section ResolutionFacts.

Import Resolution.

Context {World : Type}.

Lemma user_functions_In (current_globals : namespace World) (func : pyobject World) :
  In func (user_functions World current_globals) <->
  exists name, In (name, func) current_globals /\ is_user_function World (name, func) = true.
Proof.
  unfold user_functions. rewrite in_map_iff. split.
  - intros ([name f] & <- & Hin). apply filter_In in Hin as [Hin Hu]. eauto.
  - intros (name & Hin & Hu). exists (name, func). split; [reflexivity|].
    apply filter_In. auto.
Qed.

Lemma find_user_function_In (entry_point : string) (current_globals : namespace World)
    (func : pyobject World) :
  find_user_function World entry_point current_globals = Some func ->
  In func (user_functions World current_globals).
Proof.
  unfold find_user_function.
  destruct (user_functions World current_globals) as [|f [|g rest]] eqn:Hu.
  - discriminate.
  - intros [= <-]. now left.
  - destruct (find _ (f :: g :: rest)) as [h|] eqn:Hfind.
    + intros [= <-]. now apply find_some in Hfind.
    + intros [= <-]. now left.
Qed.

Lemma find_user_function_None (entry_point : string)
    (current_globals : namespace World) :
  find_user_function World entry_point current_globals = None <->
  forall name func, In (name, func) current_globals ->
                    is_user_function World (name, func) = false.
Proof.
  split.
  - intros H name func Hin.
    destruct (is_user_function World (name, func)) eqn:Hu; [|reflexivity].
    assert (Hf : In func (user_functions World current_globals))
      by (apply user_functions_In; eauto).
    unfold find_user_function in H.
    destruct (user_functions World current_globals) as [|f [|g rest]];
      [destruct Hf | discriminate |].
    destruct (find _ (f :: g :: rest)); discriminate.
  - intros H. unfold find_user_function.
    destruct (user_functions World current_globals) as [|f rest] eqn:Hu; [reflexivity|].
    assert (Hf : In f (user_functions World current_globals)) by (rewrite Hu; now left).
    apply user_functions_In in Hf as (name & Hin & Hok).
    rewrite (H name f Hin) in Hok. discriminate.
Qed.

(** X9: [find_user_function] returns a function of the namespace that is
    bound to a name of the candidate's: never one of the harness's own three
    functions, never a name starting with two underscores, never an object
    that is not a function; and it finds one whenever there is one. *)
Theorem find_user_function_sound (entry_point : string)
    (current_globals : namespace World) :
  (forall func,
     find_user_function World entry_point current_globals = Some func ->
     exists name,
       In (name, func) current_globals /\
       is_function World func = true /\
       String.prefix "__" name = false /\
       ~ In name harness_names) /\
  (find_user_function World entry_point current_globals = None <->
   forall name func, In (name, func) current_globals ->
                     is_user_function World (name, func) = false).
Proof.
  split; [|apply find_user_function_None].
  intros func H. apply find_user_function_In, user_functions_In in H.
  destruct H as (name & Hin & Hu). exists name.
  unfold is_user_function in Hu. simpl in Hu.
  apply andb_true_iff in Hu as [Hu Hh]. apply andb_true_iff in Hu as [Hf Hd].
  apply negb_true_iff in Hd, Hh.
  repeat split; trivial.
  intros Hn. apply existsb_eqb_In in Hn. simpl in Hn, Hh. congruence.
Qed.

Lemma find_first_match {A : Type} (p : A -> bool) (before after : list A) (x : A) :
  (forall y, In y before -> p y = false) -> p x = true ->
  find p (before ++ x :: after) = Some x.
Proof.
  induction before as [|y before IH]; intros Hb Hx; simpl.
  - now rewrite Hx.
  - rewrite (Hb y (or_introl eq_refl)). apply IH; [|exact Hx].
    intros z Hz. apply Hb. now right.
Qed.

Lemma find_no_match {A : Type} (p : A -> bool) (l : list A) :
  (forall y, In y l -> p y = false) -> find p l = None.
Proof.
  induction l as [|y l IH]; intros H; simpl; [reflexivity|].
  rewrite (H y (or_introl eq_refl)). apply IH. intros z Hz. apply H. now right.
Qed.

(** X10: the entry point of the function-shaped harness, for an entry point
    that is an identifier.  A name that is no local variable of
    [__run_tests__] and that the module binds is the object called; so is a
    builtin of that name when the module binds none.  Otherwise, that is
    when the name is bound nowhere or is one of the local variables of
    [__run_tests__] (then whatever the module binds to it is not seen),
    [find_user_function] chooses among the user functions of the module:
    when there is none the run ends with the [AssertionError] of the
    harness before the cases are read, with no call and no output; a single
    one is called whatever its name; of several, the first whose
    [__name__] is the entry point is called, and the first of all when no
    [__name__] is. *)
Theorem entry_point_resolution (entry_point : string)
    (CASES : res (list (value * value))) (current_globals builtins : namespace World)
    (w : World)
    (Hid : identifier entry_point = true) :
  let run := run_harness World entry_point CASES current_globals builtins w in
  let called obj :=
    FunctionHarness.run_tests World (Some (call_object World obj)) CASES w in
  (~ In entry_point run_tests_locals ->
   (forall obj, lookup entry_point current_globals = Some obj -> run = called obj) /\
   (forall obj,
      lookup entry_point current_globals = None ->
      lookup entry_point builtins = Some obj -> run = called obj)) /\
  (In entry_point run_tests_locals \/
   (lookup entry_point current_globals = None /\ lookup entry_point builtins = None) ->
   (user_functions World current_globals = [] ->
    run = mkReport [] [] (AssertionError NoFunctionFound) w) /\
   (forall only, user_functions World current_globals = [only] -> run = called only) /\
   (forall before func after,
      user_functions World current_globals = (before ++ func :: after)%list ->
      (forall f, In f before -> dunder_name World f <> entry_point) ->
      dunder_name World func = entry_point ->
      run = called func) /\
   (forall first rest,
      user_functions World current_globals = first :: rest ->
      (forall f, In f (first :: rest) -> dunder_name World f <> entry_point) ->
      run = called first)).
Proof.
  cbv zeta. unfold run_harness, resolve, load_name. split.
  - intros Hlocal.
    assert (Hl : existsb (String.eqb entry_point) run_tests_locals = false).
    { destruct (existsb (String.eqb entry_point) run_tests_locals) eqn:E; [|reflexivity].
      apply existsb_eqb_In in E. contradiction. }
    rewrite Hl. split.
    + intros obj ->. reflexivity.
    + intros obj -> ->. reflexivity.
  - intros Hunbound.
    assert (Hload : (if existsb (String.eqb entry_point) run_tests_locals then None
                     else match lookup entry_point current_globals with
                          | Some obj => Some obj
                          | None => lookup entry_point builtins
                          end) = None).
    { destruct Hunbound as [Hlocal|[Hg Hb]].
      - apply existsb_eqb_In in Hlocal. now rewrite Hlocal.
      - rewrite Hg, Hb. now destruct (existsb _ _). }
    rewrite Hload. unfold find_user_function. repeat apply conj.
    + intros ->. reflexivity.
    + intros only ->. reflexivity.
    + intros before func after Hu Hbefore Hfunc. rewrite Hu.
      assert (Hfind : find (fun f => String.eqb (dunder_name World f) entry_point)
                        (before ++ func :: after) = Some func).
      { apply find_first_match.
        - intros f Hf. apply String.eqb_neq. now apply Hbefore.
        - now apply String.eqb_eq. }
      rewrite Hfind.
      destruct before as [|f [|g before]]; destruct after as [|h after];
        simpl in *; try reflexivity;
        try (destruct (String.eqb (dunder_name World f) entry_point);
             injection Hfind as <-; reflexivity).
    + intros first rest Hu Hnone. rewrite Hu.
      assert (Hfind : find (fun f => String.eqb (dunder_name World f) entry_point)
                        (first :: rest) = None).
      { apply find_no_match. intros f Hf. apply String.eqb_neq. now apply Hnone. }
      rewrite Hfind. now destruct rest.
Qed.

End ResolutionFacts.

(** The theorem at the entry point [total], which the candidate binds to an
    object that is not a function, beside its one function [plus]: [total]
    is a local variable of [__run_tests__], so [plus] is the one called. *)
Lemma entry_point_resolution_witness :
  stdout (Resolution.run_harness unit "total"
            (cases_literal [(VList [VInt 2; VInt 3], VInt 5)])
            [("total", Resolution.mkObject unit false "total"
                         (fun _ w => (Throws (Exn TypeError), w)));
             ("plus", Resolution.mkObject unit true "plus" (binary_int_function Z.add))]
            [] tt) = ["__RESULT__:1/1"].
Proof.
  rewrite (proj1 (proj2 (proj2
    (entry_point_resolution "total"
       (cases_literal [(VList [VInt 2; VInt 3], VInt 5)])
       [("total", Resolution.mkObject unit false "total"
                    (fun _ w => (Throws (Exn TypeError), w)));
        ("plus", Resolution.mkObject unit true "plus" (binary_int_function Z.add))]
       [] tt eq_refl)
    (or_introl (or_intror (or_intror (or_intror (or_introl eq_refl)))))))
    (Resolution.mkObject unit true "plus" (binary_int_function Z.add)) eq_refl).
  reflexivity.
Defined.

(** ** The host side of the object-shaped harness *)

Lemma class_cases_split (cases : list (value * value)) :
  forall CASES,
    class_cases cases = inr CASES <->
    Forall2 (fun c t => split_case c = Some t) cases CASES.
Proof.
  induction cases as [|[args expected] cases IH]; intros CASES.
  - simpl. split.
    + intros [= <-]. constructor.
    + intros H. inversion H. reflexivity.
  - simpl. split.
    + intros H.
      destruct (subscript args 0) as [e|methods] eqn:H0; [discriminate|].
      destruct (subscript args 1) as [e|args_list] eqn:H1; [discriminate|].
      destruct (class_cases cases) as [e|more] eqn:Hc; [discriminate|].
      injection H as <-. constructor.
      * unfold split_case, first_two. simpl. now rewrite H0, H1.
      * now apply IH.
    + intros H. inversion H as [|? t ? rest' Ht Hrest]; subst.
      apply IH in Hrest. rewrite Hrest.
      unfold split_case, first_two in Ht. simpl in Ht.
      destruct (subscript args 0) as [e|methods]; [discriminate|].
      destruct (subscript args 1) as [e|args_list]; [discriminate|].
      injection Ht as <-. reflexivity.
Qed.

Lemma class_cases_raises (cases : list (value * value)) (bad : value * value) :
  In bad cases -> split_case bad = None -> exists e, class_cases cases = inl e.
Proof.
  induction cases as [|[args expected] cases IH]; [intros []|].
  intros Hin Hbad. simpl.
  destruct (subscript args 0) as [e|methods] eqn:H0; [eauto|].
  destruct (subscript args 1) as [e|args_list] eqn:H1; [eauto|].
  destruct Hin as [<-|Hin].
  - unfold split_case, first_two in Hbad. simpl in Hbad. rewrite H0, H1 in Hbad.
    discriminate.
  - destruct (IH Hin Hbad) as [e ->]. eauto.
Qed.

Lemma is_class_based_task_split (c : value * value) (rest : list (value * value)) :
  is_class_based_task (c :: rest) = true ->
  exists name more args,
    split_case c = Some (VList (VStr name :: more), VList args, snd c).
Proof.
  intros H. destruct c as [first_input output].
  destruct first_input as [| | | | |items| | |]; try discriminate.
  destruct items as [|names [|second [|]]]; try discriminate.
  destruct names as [| | | | |names| | |]; try discriminate.
  destruct second as [| | | | |args| | |]; try discriminate.
  destruct names as [|[| | | |name| | | |] more]; try discriminate.
  exists name, more, args. reflexivity.
Qed.

Lemma subscript_raises (v : value) (i : nat) (e : host_exn) :
  subscript v i = inl e -> e = subscript_error v.
Proof.
  destruct v; simpl; try congruence.
  - destruct (String.get i s); congruence.
  - destruct (nth_error items i); congruence.
  - destruct (nth_error items i); congruence.
Qed.

Lemma split_case_None (c : value * value) :
  split_case c = None ->
  subscript (fst c) 0 = inl (subscript_error (fst c)) \/
  (exists methods, subscript (fst c) 0 = inr methods /\
                   subscript (fst c) 1 = inl (subscript_error (fst c))).
Proof.
  unfold split_case, first_two. intros H.
  destruct (subscript (fst c) 0) as [e|methods] eqn:H0.
  - left. now rewrite (subscript_raises _ _ _ H0).
  - right. exists methods. split; [reflexivity|].
    destruct (subscript (fst c) 1) as [e|args_list] eqn:H1; [|discriminate].
    now rewrite (subscript_raises _ _ _ H1).
Qed.

(** The builder raises at the first case that cannot be split. *)
Lemma class_cases_first_bad (pre post : list (value * value)) (bad : value * value) :
  forallb splittable pre = true -> split_case bad = None ->
  class_cases (pre ++ bad :: post) = inl (subscript_error (fst bad)).
Proof.
  intros Hpre Hbad. induction pre as [|[args expected] pre IH].
  - destruct bad as [args expected]. simpl in *.
    destruct (split_case_None _ Hbad) as [H0|(methods & H0 & H1)]; simpl in H0.
    + now rewrite H0.
    + simpl in H1. now rewrite H0, H1.
  - simpl in Hpre. apply andb_true_iff in Hpre as [Hc Hpre].
    unfold splittable, split_case, first_two in Hc. simpl in Hc |- *.
    destruct (subscript args 0); [discriminate|].
    destruct (subscript args 1); [discriminate|].
    now rewrite (IH Hpre).
Qed.

(** X11: for a task that [is_class_based_task] accepts,
    [build_class_test_harness] writes one entry
    [(input[0], input[1], output)] per case, in order, exactly when every
    case has an [input[0]] and an [input[1]].  The test of
    [is_class_based_task] secures that for the first case only: at the
    first later case whose input has not both the builder raises, an
    [IndexError] when that input is a list, a tuple or a text, a [KeyError]
    when it is a mapping, a [TypeError] otherwise.  A task of one case
    always builds. *)
Theorem build_class_test_harness_cases (entry_point : string)
    (c : value * value) (rest : list (value * value))
    (Hclass : is_class_based_task (c :: rest) = true) :
  (forall CASES,
     build_class_test_harness entry_point (c :: rest) =
       inr (ClassHarnessText entry_point CASES) <->
     Forall2 (fun c t => split_case c = Some t) (c :: rest) CASES) /\
  (forall pre bad post,
     rest = (pre ++ bad :: post)%list ->
     forallb splittable pre = true -> split_case bad = None ->
     build_class_test_harness entry_point (c :: rest) =
       inl (match fst bad with
            | VList _ | VTuple _ | VStr _ => IndexError
            | VDict _ => Host KeyError
            | _ => Host TypeError
            end)) /\
  (rest = [] ->
   exists name more args,
     build_class_test_harness entry_point (c :: rest) =
       inr (ClassHarnessText entry_point
              [(VList (VStr name :: more), VList args, snd c)])).
Proof.
  destruct (is_class_based_task_split c rest Hclass) as (name & more & args & Hc).
  assert (Hbuild : build_class_test_harness entry_point (c :: rest) =
                   match class_cases (c :: rest) with
                   | inl e => inl e
                   | inr CASES => inr (ClassHarnessText entry_point CASES)
                   end).
  { unfold build_class_test_harness. destruct c as [first_input output].
    unfold split_case, first_two in Hc. simpl in Hc.
    destruct (subscript first_input 0); [discriminate|].
    destruct (subscript first_input 1); [discriminate|]. reflexivity. }
  rewrite Hbuild. split; [|split].
  - intros CASES. rewrite <- class_cases_split.
    destruct (class_cases (c :: rest)); split; congruence.
  - intros pre bad post -> Hpre Hbad.
    assert (Hfirst : forallb splittable (c :: pre) = true).
    { simpl. unfold splittable at 1. now rewrite Hc, Hpre. }
    change (c :: pre ++ bad :: post)%list with ((c :: pre) ++ bad :: post)%list.
    rewrite (class_cases_first_bad (c :: pre) post bad Hfirst Hbad). reflexivity.
  - intros ->. exists name, more, args.
    assert (H : class_cases [c] = inr [(VList (VStr name :: more), VList args, snd c)]).
    { apply class_cases_split. constructor; [exact Hc | constructor]. }
    now rewrite H.
Qed.

(** The theorem at a task whose second case has the number 5 for input. *)
Lemma build_class_test_harness_cases_witness :
  build_class_test_harness "Stack"
    [(VList [VList [VStr "Stack"]; VList [VList []]], VList [VNone]);
     (VInt 5, VNone)] = inl (Host TypeError).
Proof.
  exact (proj1 (proj2 (build_class_test_harness_cases "Stack"
    (VList [VList [VStr "Stack"]; VList [VList []]], VList [VNone])
    [(VInt 5, VNone)] eq_refl)) [] (VInt 5, VNone) [] eq_refl eq_refl eq_refl).
Defined.

(** ** The batch loop *)

Lemma forallb_splittable (cases : list (value * value)) :
  forallb splittable cases = true -> exists CASES, class_cases cases = inr CASES.
Proof.
  induction cases as [|c cases IH]; intros H; [now exists []|].
  simpl in H. apply andb_true_iff in H as [Hc H].
  destruct (IH H) as [more Hmore].
  unfold splittable in Hc. destruct (split_case c) as [t|] eqn:Ht; [|discriminate].
  exists (t :: more). apply class_cases_split. constructor; [exact Ht|].
  now apply class_cases_split.
Qed.

Lemma not_forallb_splittable (cases : list (value * value)) :
  forallb splittable cases = false -> exists e, class_cases cases = inl e.
Proof.
  intros H.
  assert (Hbad : exists bad, In bad cases /\ split_case bad = None).
  { induction cases as [|c cases IH]; [discriminate|].
    simpl in H. apply andb_false_iff in H as [Hc|H].
    - exists c. split; [now left|]. unfold splittable in Hc.
      now destruct (split_case c).
    - destruct (IH H) as (bad & Hin & Hbad). exists bad. split; [now right|exact Hbad]. }
  destruct Hbad as (bad & Hin & Hbad). exact (class_cases_raises cases bad Hin Hbad).
Qed.

Lemma build_class_test_harness_class_cases (entry_point : string)
    (cases : list (value * value)) :
  is_class_based_task cases = true ->
  build_class_test_harness entry_point cases =
  match class_cases cases with
  | inl e => inl e
  | inr CASES => inr (ClassHarnessText entry_point CASES)
  end.
Proof.
  intros H. destruct cases as [|c rest]; [discriminate|].
  destruct (is_class_based_task_split c rest H) as (name & more & args & Hc).
  unfold build_class_test_harness. destruct c as [first_input output].
  unfold split_case, first_two in Hc. simpl in Hc.
  destruct (subscript first_input 0); [discriminate|].
  destruct (subscript first_input 1); [discriminate|]. reflexivity.
Qed.

(** The harness of [main] fails to build for an object-shaped task with a
    case that cannot be split, and for no other. *)
Lemma build_harness_raises (entry_point : string) (cases : list (value * value)) :
  match Batch.build_harness entry_point cases with
  | inl _ => is_class_based_task cases && negb (forallb splittable cases) = true
  | inr _ => is_class_based_task cases && negb (forallb splittable cases) = false
  end.
Proof.
  unfold Batch.build_harness.
  destruct (is_class_based_task cases) eqn:Hclass; [|reflexivity].
  rewrite build_class_test_harness_class_cases by exact Hclass.
  destruct (forallb splittable cases) eqn:Hall.
  - destruct (forallb_splittable cases Hall) as [CASES ->]. reflexivity.
  - destruct (not_forallb_splittable cases Hall) as [e ->]. reflexivity.
Qed.

Lemma strip_extract_code (response : value) :
  strip (extract_code response) = extract_code response.
Proof.
  unfold extract_code. destruct response; try reflexivity.
  destruct (first_block true "```python" s); [apply strip_idempotent|].
  destruct (first_block false "```" s); apply strip_idempotent.
Qed.

Lemma class_cases_error (cases : list (value * value)) (e : host_exn) :
  class_cases cases = inl e -> exists input, e = subscript_error input.
Proof.
  induction cases as [|[args expected] cases IH]; simpl; [discriminate|].
  destruct (subscript args 0) as [e0|methods] eqn:H0.
  { intros [= <-]. exists args. exact (subscript_raises _ _ _ H0). }
  destruct (subscript args 1) as [e1|args_list] eqn:H1.
  { intros [= <-]. exists args. exact (subscript_raises _ _ _ H1). }
  destruct (class_cases cases) as [e2|more]; [|discriminate].
  intros [= <-]. now apply IH.
Qed.

(** The harness of [main] fails to build with the exception of a subscript. *)
Lemma build_harness_error (entry_point : string) (cases : list (value * value))
    (e : host_exn) :
  Batch.build_harness entry_point cases = inl e -> e <> UnicodeEncodeError.
Proof.
  unfold Batch.build_harness.
  destruct (is_class_based_task cases) eqn:Hclass; [|discriminate].
  rewrite build_class_test_harness_class_cases by exact Hclass.
  destruct (class_cases cases) as [e'|CASES] eqn:Hcases; [|discriminate].
  intros [= <-]. destruct (class_cases_error cases e' Hcases) as [input ->].
  destruct input; discriminate.
Qed.

Section BatchFacts.

Import Batch.

Variable sandbox : program -> execution.
Variable encodable : verdict -> bool.


(** What the body of the loop does with one item: it stops before the item
    is counted, skips the item, records its verdict, or stops at the write
    of its line. *)
Lemma evaluate_item_outcome (item : value) (s : tally) :
  match evaluate_item sandbox encodable item s with
  | (s', None) =>
      stops item = false /\
      ((evaluable item = false /\ s' = s) \/
       (evaluable item = true /\
        exists v, reported sandbox item v /\ encodable v = true /\
                  s' = record_verdict s v))
  | (s', Some e) =>
      (stops item = true /\ s' = s /\ e <> UnicodeEncodeError /\
       (malformed item = true -> e = Host AttributeError)) \/
      (stops item = false /\ evaluable item = true /\
       exists v, reported sandbox item v /\ encodable v = false /\
                 s' = count_verdict s v /\ e = UnicodeEncodeError)
  end.
Proof.
  destruct item as [| | | | | | |fields|];
    try (left; repeat split; solve [discriminate | reflexivity]).
  unfold evaluate_item, get, stops, evaluable, malformed.
  fold (field fields "dataset_index" (VInt (-1))).
  fold (field fields "raw_item" (VDict [])).
  fold (field fields "response" (VStr "")).
  destruct (field fields "raw_item" (VDict [])) as [| | | | | | |raw|] eqn:Hraw;
    try (left; repeat split; solve [discriminate | reflexivity]).
  fold (field raw "entry_point" VNone). fold (field raw "test" VNone).
  fold (field raw "task_id" (VStr "unknown")). fold (cases_of raw).
  rewrite strip_extract_code.
  destruct (field raw "entry_point" VNone) as [| | | |ep| | | |] eqn:Hep;
    try (split; [reflexivity | left; split; reflexivity]).
  destruct (String.eqb (strip ep) "") eqn:Hblank.
  { split; [reflexivity | left; split; reflexivity]. }
  destruct (cases_of raw) as [|c cases] eqn:Hcases.
  { split; [reflexivity | left; split; reflexivity]. }
  destruct (String.eqb (extract_code (field fields "response" (VStr ""))) "") eqn:Hcode.
  { split; [now rewrite !andb_false_r | left; split; [now rewrite !andb_false_r | reflexivity]]. }
  cbn [negb andb List.length Nat.eqb].
  pose proof (build_harness_raises (strip ep) (c :: cases)) as Hbuild.
  destruct (build_harness (strip ep) (c :: cases)) as [e|text] eqn:Htext.
  { left. repeat apply conj;
      [exact Hbuild | reflexivity | exact (build_harness_error _ _ _ Htext) | discriminate]. }
  destruct (run_file_and_capture
              (sandbox (mkProgram (extract_code (field fields "response" (VStr ""))) text)))
    as [success output] eqn:Hrun.
  assert (Hline : reported sandbox (VDict fields)
                    (mkVerdict (field fields "dataset_index" (VInt (-1)))
                       (field raw "task_id" (VStr "unknown")) (VStr ep) success output
                       (is_class_based_task (c :: cases)))).
  { exists fields, raw, ep, text. rewrite Hcases.
    repeat apply conj; try reflexivity; try assumption.
    simpl. now rewrite Hrun. }
  destruct (encodable _) eqn:Henc.
  - split; [exact Hbuild|]. right. split; [reflexivity|].
    eexists. split; [exact Hline|]. split; [exact Henc | reflexivity].
  - right. split; [exact Hbuild|]. split; [reflexivity|].
    eexists. split; [exact Hline|]. repeat split. exact Henc.
Qed.




Lemma record_verdict_consistent (s : tally) (v : verdict) :
  consistent s -> consistent (record_verdict s v).
Proof.
  intros (He & Hw & Hp). unfold consistent, record_verdict. simpl.
  rewrite filter_app, !length_app. simpl.
  destruct (passed v); simpl; lia.
Qed.

(** The counters agree with the report, but where [main] stops at a write. *)
Lemma main_loop_invariant (items : list value) :
  forall s,
    consistent s ->
    match main_loop sandbox encodable items s with
    | (s', stopped) =>
        (stopped <> Some UnicodeEncodeError /\ consistent s') \/
        (stopped = Some UnicodeEncodeError /\
         exists s0 v, consistent s0 /\ encodable v = false /\ s' = count_verdict s0 v)
    end.
Proof.
  induction items as [|item items IH]; intros s Hs.
  - left. split; [discriminate | exact Hs].
  - simpl. pose proof (evaluate_item_outcome item s) as Hout.
    destruct (evaluate_item sandbox encodable item s) as [s1 [e|]].
    + destruct Hout as [(_ & -> & He & _)|(_ & _ & v & _ & Henc & -> & ->)].
      * left. split; [congruence | exact Hs].
      * right. split; [reflexivity|]. now exists s, v.
    + apply IH. destruct Hout as [_ [[_ ->]|(_ & v & _ & _ & ->)]];
        [exact Hs | now apply record_verdict_consistent].
Qed.

(** X13: the counters of [main] against the report it has written, whatever
    the items and wherever it stops.  [total] and [evaluated] are always
    equal and [passed] is at most [total].  Unless [main] stops at the
    write of a line, [total] is the number of lines written and [passed]
    the number of those marked as passed.  When it stops at a write, the
    item of that line has been counted already: [total] is one more than
    the number of lines written, and [passed] counts the verdict of the
    line that is missing. *)
Theorem main_counters_agree (items : list value) :
  let s := fst (main sandbox encodable items) in
  let stopped := snd (main sandbox encodable items) in
  total s = evaluated s /\
  (passed_count s <= total s)%nat /\
  (stopped <> Some UnicodeEncodeError -> consistent s) /\
  (stopped = Some UnicodeEncodeError ->
   exists v,
     encodable v = false /\
     total s = S (List.length (written s)) /\
     passed_count s =
       (List.length (filter passed (written s)) + if passed v then 1 else 0)%nat).
Proof.
  cbv zeta. unfold main.
  assert (H0 : consistent (mkTally 0 0 0 [])) by (repeat split).
  pose proof (main_loop_invariant items _ H0) as H.
  destruct (main_loop sandbox encodable items (mkTally 0 0 0 [])) as [s stopped].
  cbn [fst snd].
  destruct H as [[Hne (He & Hw & Hp)]|[-> (s0 & v & (He & Hw & Hp) & Henc & ->)]].
  - repeat apply conj.
    + exact He.
    + rewrite Hw, Hp. apply filter_length_le.
    + intros _. repeat split; assumption.
    + intros H. contradiction.
  - unfold count_verdict. cbn [total evaluated passed_count written].
    pose proof (filter_length_le passed (written s0)) as Hle.
    repeat apply conj.
    + now rewrite He.
    + destruct (passed v); lia.
    + intros H. now contradiction H.
    + intros _. exists v. repeat split; [exact Henc | now rewrite Hw |].
      rewrite Hp. destruct (passed v); lia.
Qed.

Lemma main_loop_written (items : list value) :
  forall s s',
    main_loop sandbox encodable items s = (s', None) ->
    exists vs,
      Forall2 (reported sandbox) (filter evaluable items) vs /\
      written s' = (written s ++ vs)%list /\
      total s' = (total s + List.length vs)%nat.
Proof.
  induction items as [|item items IH]; intros s s' H.
  - injection H as <-. exists []. rewrite app_nil_r. simpl.
    repeat split; [constructor | lia].
  - simpl in H. pose proof (evaluate_item_outcome item s) as Hout.
    destruct (evaluate_item sandbox encodable item s) as [s1 [e|]]; [discriminate|].
    destruct (IH _ _ H) as (vs & Hvs & Hw & Ht).
    destruct Hout as [_ [[Hev ->]|[Hev (v & Hv & _ & ->)]]]; simpl; rewrite Hev.
    + exists vs. auto.
    + exists (v :: vs). simpl in Hw, Ht. rewrite <- app_assoc in Hw.
      repeat split; [now constructor | exact Hw | simpl; lia].
Qed.

(** X14: when [main] runs through the items, the report holds one line for
    each item that has an entry point that is not blank, a structured case
    and code, in the order of the items, and no other line; each line is
    the one of its item alone, and [total] counts these items. *)
Theorem main_reports_evaluable_items (items : list value) (s : tally)
    (Hrun : main sandbox encodable items = (s, None)) :
  Forall2 (reported sandbox) (filter evaluable items) (written s) /\
  total s = List.length (filter evaluable items).
Proof.
  destruct (main_loop_written items _ _ Hrun) as (vs & Hvs & Hw & Ht).
  simpl in Hw, Ht. subst vs. split; [exact Hvs|].
  rewrite Ht. symmetry. exact (Forall2_length Hvs).
Qed.

End BatchFacts.

(** The theorem at a batch of three items, of which the second has no
    code. *)
Lemma main_reports_evaluable_items_witness :
  Batch.total
    (fst (Batch.main lenient_sandbox all_encodable
            [function_item "def add(a, b): return a + b"; function_item "   ";
             function_item "```python
def add(a, b): return a + b
```"])) = 2%nat.
Proof.
  exact (proj2 (main_reports_evaluable_items lenient_sandbox all_encodable
    [function_item "def add(a, b): return a + b"; function_item "   ";
     function_item "```python
def add(a, b): return a + b
```"] _ eq_refl)).
Defined.

(** ** Runs of the two drivers *)

Section FunctionDriverRuns.

Import FunctionHarness.

Context {World : Type} (fn : callable World).

Lemma function_run_cases_marker (CASES : list (value * value)) :
  forall (i passed total : nat) (log : list call_event) (w : World),
    let r := run_cases World fn CASES i passed total log w in
    (final r = Completed /\
     stdout r = [result_line (passed + List.length CASES) (total + List.length CASES)]) \/
    (final r <> Completed /\ stdout r = []).
Proof.
  induction CASES as [|[args expected] rest IH]; intros i passed total log w.
  - left. simpl. now rewrite !Nat.add_0_r.
  - cbn [run_cases List.length]. cbv zeta.
    destruct (fn (positional args) w) as [[result|[e|b]] w'];
      try (right; split; [discriminate|reflexivity]).
    destruct (fn_harness_results_equivalent result expected) as [[|]|e];
      try (right; split; [discriminate|reflexivity]).
    rewrite <- !Nat.add_succ_comm. apply IH.
Qed.

End FunctionDriverRuns.

Section ClassDriverRuns.

Import ClassHarness.

Context {World Obj Method : Type} (cls : candidate World Obj Method).

(** The inner loop prints nothing, and when it completes its calls are those
    planned for its steps. *)
Lemma run_steps_silent (case_idx : nat) (steps : list (value * value * value)) :
  forall (i : nat) (obj : option Obj) (log : list call_event) (w : World),
    let r := run_steps World Obj Method cls case_idx steps i obj log w in
    stdout r = [] /\
    (final r = Completed -> calls r = (log ++ steps_calls i steps)%list).
Proof.
  induction steps as [|[[method_name method_args] expected] rest IH];
    intros i obj log w; cbv zeta.
  - simpl. split; [reflexivity|]. intros _. now rewrite app_nil_r.
  - cbn [run_steps steps_calls step_call].
    destruct (Nat.eqb i 0).
    + destruct (positional method_args) as [args|e];
        [|split; [reflexivity|discriminate]].
      destruct (construct World Obj Method cls args w) as [[o|x] w'];
        [|split; [reflexivity|discriminate]].
      destruct (cls_harness_results_equivalent VNone expected) as [[|]|e];
        try (split; [reflexivity|discriminate]).
      destruct (IH (S i) (Some o) (log ++ [CallClass args])%list w') as [Hout Hcalls].
      split; [exact Hout|]. intros Hf. rewrite (Hcalls Hf), <- app_assoc. reflexivity.
    + destruct obj as [o|]; [|split; [reflexivity|discriminate]].
      destruct (getattr World Obj Method cls o method_name w) as [[method|x] w1];
        [|split; [reflexivity|discriminate]].
      destruct (positional method_args) as [args|e];
        [|split; [reflexivity|discriminate]].
      destruct (invoke World Obj Method cls method args w1) as [[result|x] w2];
        [|split; [reflexivity|discriminate]].
      destruct (cls_harness_results_equivalent result expected) as [[|]|e];
        try (split; [reflexivity|discriminate]).
      destruct (IH (S i) (Some o) (log ++ [CallMethod method_name args])%list w2)
        as [Hout Hcalls].
      split; [exact Hout|]. intros Hf. rewrite (Hcalls Hf), <- app_assoc. reflexivity.
Qed.

Lemma class_run_cases_marker (CASES : list (value * value * value)) :
  forall (case_idx passed total : nat) (log : list call_event) (w : World),
    let r := run_cases World Obj Method cls CASES case_idx passed total log w in
    (final r = Completed /\
     stdout r = [result_line (passed + List.length CASES) (total + List.length CASES)] /\
     calls r = (log ++ planned_calls CASES)%list) \/
    (final r <> Completed /\ stdout r = []).
Proof.
  induction CASES as [|[[methods args_list] expected_list] rest IH];
    intros case_idx passed total log w.
  - left. simpl. now rewrite !Nat.add_0_r, app_nil_r.
  - cbn [run_cases List.length planned_calls flat_map case_steps]. cbv zeta.
    destruct (length_mismatch methods args_list expected_list) as [[|]|e];
      try (right; split; [discriminate|reflexivity]).
    unfold bind.
    destruct (iterate methods) as [ms|e];
      [|right; split; [discriminate|reflexivity]].
    destruct (iterate args_list) as [az|e];
      [|right; split; [discriminate|reflexivity]].
    destruct (iterate expected_list) as [es|e];
      [|right; split; [discriminate|reflexivity]].
    destruct (run_steps_silent case_idx (zip3 ms az es) 0 None log w) as [Hout Hcalls].
    destruct (final (run_steps World Obj Method cls case_idx (zip3 ms az es) 0 None log w))
      eqn:Hf; try (right; split; [congruence|exact Hout]).
    rewrite (Hcalls eq_refl), <- !Nat.add_succ_comm.
    fold (planned_calls rest). rewrite app_assoc. apply IH.
Qed.

(** A run that does not complete is not changed by the cases that follow;
    one that completes goes on with them. *)
Lemma class_run_cases_app (pre post : list (value * value * value)) :
  forall (case_idx passed total : nat) (log : list call_event) (w : World),
    let r := run_cases World Obj Method cls pre case_idx passed total log w in
    (final r <> Completed ->
     run_cases World Obj Method cls (pre ++ post) case_idx passed total log w = r) /\
    (final r = Completed ->
     run_cases World Obj Method cls (pre ++ post) case_idx passed total log w =
     run_cases World Obj Method cls post (case_idx + List.length pre)
       (passed + List.length pre) (total + List.length pre) (calls r) (world r)).
Proof.
  induction pre as [|[[methods args_list] expected_list] rest IH];
    intros case_idx passed total log w; cbv zeta.
  - simpl. split; [congruence|]. intros _. now rewrite !Nat.add_0_r.
  - rewrite <- app_comm_cons. cbn [run_cases List.length].
    destruct (length_mismatch methods args_list expected_list) as [[|]|e];
      try (split; [reflexivity|discriminate]).
    destruct (ms <- iterate methods ;; az <- iterate args_list ;;
              es <- iterate expected_list ;; Ok (zip3 ms az es)) as [steps|e];
      [|split; [reflexivity|discriminate]].
    destruct (final (run_steps World Obj Method cls case_idx steps 0 None log w)) eqn:Hf;
      try (split; [reflexivity|rewrite Hf; discriminate]).
    rewrite <- !Nat.add_succ_comm. apply IH.
Qed.

End ClassDriverRuns.

(** X15: what either driver prints is all or nothing.  A run that completes
    has evaluated the literal of [CASES] and prints the one line
    [__RESULT__:<n>/<n>], [n] the number of cases; a run that ends in any
    other way (no entry point, an exception of the literal, a failing case)
    prints no line.  So the marker never reports a score other than the
    full one. *)
Theorem drivers_print_full_score_or_nothing :
  (forall (World : Type) (fn : option (FunctionHarness.callable World))
          (CASES : res (list (value * value))) (w : World),
     full_score_or_nothing CASES (FunctionHarness.run_tests World fn CASES w)) /\
  (forall (World Obj Method : Type)
          (cls : option (ClassHarness.candidate World Obj Method))
          (CASES : res (list (value * value * value))) (w : World),
     full_score_or_nothing CASES (ClassHarness.run_tests World Obj Method cls CASES w)).
Proof.
  split.
  - intros World [fn|] [CASES|e] w; try (right; split; [discriminate|reflexivity]).
    destruct (function_run_cases_marker fn CASES 0 0 0 [] w) as [[Hf Hout]|H].
    + left. split; [exact Hf|]. exists CASES. split; [reflexivity|exact Hout].
    + right. exact H.
  - intros World Obj Method [cls|] [CASES|e] w;
      try (right; split; [discriminate|reflexivity]).
    destruct (class_run_cases_marker cls CASES 0 0 0 [] w) as [(Hf & Hout & _)|H].
    + left. split; [exact Hf|]. exists CASES. split; [reflexivity|exact Hout].
    + right. exact H.
Qed.

(** X16: the object-shaped driver is fail-fast across cases.  When the
    literal of [CASES] evaluates and the run on the cases [pre] does not
    complete, the run on [pre] followed by any other cases is the same run:
    same calls, same ending, same state, and nothing printed.  It is not
    so when the literal does not evaluate: if one of the other cases holds
    a float that is infinite or NaN, and nothing binds the names [inf] and
    [nan], the run ends with [NameError] before any call, those of [pre]
    included. *)
Theorem class_driver_fail_fast {World Obj Method : Type}
    (cls : ClassHarness.candidate World Obj Method)
    (pre post : list (value * value * value)) (w : World)
    (Hstop : final (ClassHarness.run_tests World Obj Method (Some cls) (Ok pre) w)
             <> Completed) :
  ClassHarness.run_tests World Obj Method (Some cls) (Ok (pre ++ post)%list) w =
  ClassHarness.run_tests World Obj Method (Some cls) (Ok pre) w /\
  (existsb class_case_holds_name post = true ->
   ClassHarness.run_tests World Obj Method (Some cls)
     (class_cases_literal (pre ++ post)) w =
   mkReport [] [] (Uncaught (Exn NameError)) w).
Proof.
  split.
  - exact (proj1 (class_run_cases_app cls pre post 0 0 0 [] w) Hstop).
  - intros Hpost. unfold class_cases_literal, evaluate_literal.
    now rewrite existsb_app, Hpost, orb_true_r.
Qed.

(** The theorem at a case that expects [5] of the constructor, followed by
    a case that would pass. *)
Lemma class_driver_fail_fast_witness :
  ClassHarness.run_tests unit unit unit (Some inert_class)
    (Ok [(VList [VStr "Stack"], VList [VList []], VList [VInt 5]);
         (VList [VStr "Stack"], VList [VList []], VList [VNone])]) tt =
  mkReport [] [CallClass []]
    (AssertionError (StepFailed 0 0 (VStr "Stack") VNone (VInt 5))) tt.
Proof.
  refine (eq_trans (proj1
    (class_driver_fail_fast inert_class
       [(VList [VStr "Stack"], VList [VList []], VList [VInt 5])]
       [(VList [VStr "Stack"], VList [VList []], VList [VNone])] tt _)) eq_refl).
  discriminate.
Defined.

(** X17: when the literal of [CASES] evaluates, a case whose three lists
    differ in length ends the run with the [AssertionError] of a length
    mismatch, before any call of that case, the constructor included: the
    calls and the state are those of the cases before it. *)
Theorem class_driver_length_mismatch {World Obj Method : Type}
    (cls : ClassHarness.candidate World Obj Method)
    (pre post : list (value * value * value)) (ms az es : list value) (w : World)
    (Hpre : final (ClassHarness.run_tests World Obj Method (Some cls) (Ok pre) w)
            = Completed)
    (Hlen : List.length ms <> List.length az \/ List.length ms <> List.length es) :
  let before := ClassHarness.run_tests World Obj Method (Some cls) (Ok pre) w in
  ClassHarness.run_tests World Obj Method (Some cls)
    (Ok (pre ++ (VList ms, VList az, VList es) :: post)%list) w =
  mkReport [] (calls before) (AssertionError (LengthMismatch (List.length pre)))
    (world before).
Proof.
  cbv zeta. unfold ClassHarness.run_tests in *.
  rewrite (proj2 (class_run_cases_app cls pre _ 0 0 0 [] w) Hpre).
  cbn [ClassHarness.run_cases]. unfold ClassHarness.length_mismatch. simpl.
  destruct (Nat.eqb (List.length ms) (List.length az)) eqn:Ha; [|reflexivity].
  destruct (Nat.eqb (List.length ms) (List.length es)) eqn:He; [|reflexivity].
  apply Nat.eqb_eq in Ha, He. lia.
Qed.

(** The theorem at a case of two methods and one list of arguments, after a
    case that passes. *)
Lemma class_driver_length_mismatch_witness :
  ClassHarness.run_tests unit unit unit (Some inert_class)
    (Ok [(VList [VStr "Stack"], VList [VList []], VList [VNone]);
         (VList [VStr "Stack"; VStr "push"], VList [VList []], VList [VNone; VNone])]) tt =
  mkReport [] [CallClass []] (AssertionError (LengthMismatch 1)) tt.
Proof.
  refine (class_driver_length_mismatch inert_class
    [(VList [VStr "Stack"], VList [VList []], VList [VNone])] []
    [VStr "Stack"; VStr "push"] [VList []] [VNone; VNone] tt eq_refl _).
  left. simpl. lia.
Defined.

(** X18: a run of the object-shaped driver that completes has evaluated the
    literal of [CASES], and its calls are fixed by the cases alone: for each
    case in order, the class is called with the arguments of step 0, and
    then the method named by each later step with the arguments of that
    step (a case of no step makes no call). *)
Theorem class_driver_calls_as_planned {World Obj Method : Type}
    (cls : ClassHarness.candidate World Obj Method)
    (CASES : res (list (value * value * value))) (w : World)
    (Hdone : final (ClassHarness.run_tests World Obj Method (Some cls) CASES w)
             = Completed) :
  exists evaluated,
    CASES = Ok evaluated /\
    calls (ClassHarness.run_tests World Obj Method (Some cls) CASES w) =
      planned_calls evaluated.
Proof.
  destruct CASES as [evaluated|e]; [|discriminate].
  exists evaluated. split; [reflexivity|].
  unfold ClassHarness.run_tests in *.
  destruct (class_run_cases_marker cls evaluated 0 0 0 [] w) as [(_ & _ & Hcalls)|[Hf _]].
  - exact Hcalls.
  - contradiction.
Qed.

(** The theorem at two cases of a stack: each starts with the constructor. *)
Lemma class_driver_calls_as_planned_witness :
  calls (ClassHarness.run_tests unit unit unit (Some inert_class)
           (class_cases_literal
              [(VList [VStr "Stack"; VStr "push"], VList [VList []; VList [VInt 1]],
                VList [VNone; VNone]);
               (VList [VStr "Stack"; VStr "pop"], VList [VList []; VList []],
                VList [VNone; VNone])]) tt) =
  [CallClass []; CallMethod (VStr "push") [VInt 1];
   CallClass []; CallMethod (VStr "pop") []].
Proof.
  destruct (class_driver_calls_as_planned inert_class
    (class_cases_literal
       [(VList [VStr "Stack"; VStr "push"], VList [VList []; VList [VInt 1]],
         VList [VNone; VNone]);
        (VList [VStr "Stack"; VStr "pop"], VList [VList []; VList []],
         VList [VNone; VNone])]) tt eq_refl) as (evaluated & Hlit & Hcalls).
  rewrite Hcalls. injection Hlit as <-. reflexivity.
Defined.
